(** * ScandEval: the text-classification benchmark adapter

    A shallow embedding of [src/scandeval/text_classification.py]
    (class [TextClassificationBenchmark]) together with the properties
    its specification states about it.

    Python objects that the adapter mutates (the batch dictionaries that
    [Dataset.map] hands to the mapped function) live in an explicit store
    and are passed by reference; exceptions are values of [exn]; every
    method is a computation in the store-and-exception monad [M]. *)

From Stdlib Require Import PrimFloat.
From Stdlib Require Import ZArith Reals Lra Lia.
From stdpp Require Import gmap strings list fin_maps.

#[local] Set Warnings "-inexact-float".
#[local] Open Scope string_scope.

(** ** Values, dictionaries and the store *)

(** One entry of a dataset column: a string (a text or a label name), an
    integer (a label id), or a sequence of integers (token ids, an
    attention mask). *)
Inductive cell :=
| CStr (s : string)
| CInt (z : Z)
| CSeq (l : list Z).

#[global] Instance cell_eq_dec : EqDecision cell.
Proof. solve_decision. Defined.

(** A batch is a Python [dict] from column names to lists of entries. *)
Abbreviation pydict := (gmap string (list cell)).

(** Batches are objects: they are held in a store and named by a reference. *)
Abbreviation ref := positive.
Abbreviation heap := (gmap positive (gmap string (list cell))).

(** The pieces of a formatted (f-string) message: literal text, and the
    [repr] of an interpolated column or dictionary. *)
Inductive fragment :=
| Lit (s : string)
| ReprColumn (c : list cell)
| ReprDict (d : gmap string Z).

Inductive exn :=
| InvalidBenchmark (msg : list fragment)
| KeyError (key : cell)
| TypeError
| AttributeError
| ValueError
| ArrowInvalid.

(** ** The monads: exceptions, and exceptions over a store *)

Definition result (A : Type) : Type := (exn + A)%type.

#[global] Instance result_ret : MRet result := λ A a, inr a.
#[global] Instance result_bind : MBind result :=
  λ A B f m, match m with inr a => f a | inl e => inl e end.

(** The store is threaded through, and survives a raised exception. *)
Definition M (A : Type) : Type := heap → heap * result A.

#[global] Instance M_ret : MRet M := λ A a h, (h, inr a).
#[global] Instance M_bind : MBind M :=
  λ A B f m h, match m h with
               | (h', inr a) => f a h'
               | (h', inl e) => (h', inl e)
               end.

Definition raise {A} (e : exn) : M A := λ h, (h, inl e).

Definition lift {A} (r : result A) : M A := λ h, (h, r).

(** [try: body except KeyError: handler] *)
Definition try_except_KeyError {A} (body handler : M A) : M A :=
  λ h, match body h with
       | (h', inl (KeyError _)) => handler h'
       | r => r
       end.

(** ** Dictionary objects *)

(** The dictionary a reference names; a reference the store does not hold
    reads as the empty dictionary. *)
Definition deref (h : heap) (r : ref) : pydict := default ∅ (h !! r).

(** [d[k]] *)
Definition getitem (r : ref) (k : string) : M (list cell) :=
  λ h, match deref h r !! k with
       | Some c => (h, inr c)
       | None => (h, inl (KeyError (CStr k)))
       end.

(** [d[k] = v], in place *)
Definition setitem (r : ref) (k : string) (v : list cell) : M unit :=
  λ h, (<[r := <[k := v]> (deref h r)]> h, inr tt).

(** A new dictionary object. *)
Definition alloc (d : pydict) : M ref :=
  λ h, let r := fresh (dom h) in (<[r := d]> h, inr r).

(** The contents of a dictionary object. *)
Definition load (r : ref) : M pydict := λ h, (h, inr (deref h r)).

(** ** External collaborators *)

(** The [padding] argument of the tokenizer and of the collator, as the
    adapter writes it: [True]/[False] or a strategy name. *)
Inductive padding_arg :=
| PadBool (b : bool)
| PadStr (s : string).

Inductive side := Left | Right.

(** A pretrained tokenizer, as far as the adapter and its collator use it:
    the call [tokenizer(docs, truncation=..., padding=...)] on a batch of
    documents, the padding token and the padding side. *)
Record PreTrainedTokenizerBase := {
  tok_call : list cell → bool → padding_arg → result pydict;
  model_max_length : nat;
  pad_token_id : Z;
  padding_side : side
}.

(** The model configuration carrying the label mapping. *)
Record Config := { label2id : gmap string Z }.

(** A metric object: [compute(predictions=..., references=...)]. *)
Record Metric := {
  compute : list Z → list Z → result (gmap string R)
}.

(** The adapter object; [_metrics] is set up by the base class. *)
Record TextClassificationBenchmark := {
  _metrics : gmap string Metric
}.

(** What a keyword argument may hold. *)
Inductive pyobj :=
| OTokenizer (t : PreTrainedTokenizerBase)
| OConfig (c : Config)
| ONone.

(** ** [_create_numerical_labels] *)

(** [label2id[lbl]]: the keys are strings, so an integer is never found
    and a list is not hashable. *)
Definition label2id_getitem (label2id : gmap string Z) (lbl : cell) : result Z :=
  match lbl with
  | CStr s => match label2id !! s with
              | Some i => inr i
              | None => inl (KeyError lbl)
              end
  | CInt _ => inl (KeyError lbl)
  | CSeq _ => inl TypeError
  end.

Definition _create_numerical_labels (self : TextClassificationBenchmark)
    (examples : ref) (label2id : gmap string Z) : M ref :=
  try_except_KeyError
    (labels ← getitem examples "label";
     ids ← lift (mapM (label2id_getitem label2id) labels);
     setitem examples "label" (CInt <$> ids))
    (labels ← getitem examples "label";
     raise (InvalidBenchmark
              [Lit "One of the labels in the dataset, ";
               ReprColumn labels;
               Lit ", does not occur ";
               Lit "in the label2id dictionary ";
               ReprDict label2id;
               Lit "."]));;
  mret examples.

(** ** The dataset library, as the adapter uses it

    Modelled from the spec: [Dataset.map] and [Dataset.remove_columns]
    (the dataset library is not part of the adapter's file). A [Dataset]
    is an immutable table of equally long columns.
    [Dataset.map(function, batched=True)] returns an empty table as it is;
    otherwise it cuts the rows into batches of [batch_size], hands each
    batch to [function] as a fresh dictionary object, merges what
    [function] returns over the batch it was given
    ([{**inputs, **processed}]) and writes the merged batches, in order,
    to a new table. *)

Record Dataset := {
  data : gmap string (list cell);
  num_rows : nat
}.

(** [Dataset.from_dict] *)
Definition from_dict (d : pydict) (n : nat) : Dataset :=
  {| data := d; num_rows := n |}.

(** The default [batch_size] of [Dataset.map]. *)
Definition batch_size : nat := 1000.

(** [range(start, stop, step)], for a positive step. *)
Fixpoint range_from (fuel start stop step : nat) : list nat :=
  match fuel with
  | O => []
  | S fuel' =>
      if decide (start < stop)
      then start :: range_from fuel' (start + step) stop step
      else []
  end.

Definition range (start stop step : nat) : list nat :=
  range_from stop start stop step.

(** [column[start : start + n]] *)
Definition slice (start n : nat) (c : list cell) : list cell :=
  take n (drop start c).

Definition apply_function_on_batch (function : ref → M ref)
    (ds : Dataset) (start : nat) : M pydict :=
  inputs ← alloc (slice start batch_size <$> data ds);
  processed ← function inputs;
  inp ← load inputs;
  out ← load processed;
  mret (out ∪ inp).

(** The number of rows of a merged batch: its columns must agree. *)
Definition batch_num_rows (b : pydict) : result nat :=
  match (length ∘ snd) <$> map_to_list b with
  | [] => mret 0
  | n :: ns => if decide (Forall (λ m, m = n) ns) then mret n
               else inl ArrowInvalid
  end.

(** The batches must have the columns of the first one; each column of
    the table is the concatenation of the batches' columns. *)
Definition write_batches (batches : list pydict) : result Dataset :=
  match batches with
  | [] => mret {| data := ∅; num_rows := 0 |}
  | b0 :: _ =>
      ns ← mapM batch_num_rows batches;
      if decide (Forall (λ b : pydict, dom b = dom b0) batches)
      then mret {| data := map_imap (λ k _,
                     Some (mjoin ((λ b : pydict, default [] (b !! k)) <$> batches))) b0;
                   num_rows := sum_list ns |}
      else inl ArrowInvalid
  end.

Definition Dataset_map (function : ref → M ref) (ds : Dataset) : M Dataset :=
  if decide (num_rows ds = 0) then mret ds
  else
    batches ← mapM (apply_function_on_batch function ds)
                   (range 0 (num_rows ds) batch_size);
    lift (write_batches batches).

(** [Dataset.remove_columns]: every named column must exist. *)
Definition remove_columns (column_names : list string) (ds : Dataset)
    : result Dataset :=
  if decide (Forall (λ c, c ∈ dom (data ds)) column_names)
  then mret {| data := foldr delete (data ds) column_names;
               num_rows := num_rows ds |}
  else inl ValueError.

(** ** [_preprocess_data] *)

(** [d[k]] on a dictionary value with string keys, such as [kwargs]. *)
Definition dict_getitem {V : Type} (d : gmap string V) (k : string) : result V :=
  match d !! k with
  | Some v => inr v
  | None => inl (KeyError (CStr k))
  end.

(** [tokenizer(doc, truncation=..., padding=...)]: only a tokenizer is
    callable. *)
Definition call (o : pyobj) (doc : list cell) (truncation : bool)
    (padding : padding_arg) : result pydict :=
  match o with
  | OTokenizer t => tok_call t doc truncation padding
  | _ => inl TypeError
  end.

(** [config.label2id] *)
Definition getattr_label2id (o : pyobj) : result (gmap string Z) :=
  match o with
  | OConfig c => inr (label2id c)
  | _ => inl AttributeError
  end.

(** The nested function [tokenise] of [_preprocess_data]; the tokenizer
    it closes over is its first argument. *)
Definition tokenise (tokenizer : pyobj) (examples : ref) : M ref :=
  doc ← getitem examples "text";
  encoding ← lift (call tokenizer doc true (PadBool true));
  alloc encoding.

Definition _preprocess_data (self : TextClassificationBenchmark)
    (dataset : Dataset) (framework : string) (kwargs : gmap string pyobj)
    : M (option Dataset) :=
  if decide (framework = "pytorch") then
    tokenizer ← lift (dict_getitem kwargs "tokenizer");
    tokenised ← Dataset_map (tokenise tokenizer) dataset;
    config ← lift (dict_getitem kwargs "config");
    label2id ← lift (getattr_label2id config);
    let numericalise (examples : ref) : M ref :=
      _create_numerical_labels self examples label2id in
    preprocessed ← Dataset_map numericalise tokenised;
    removed ← lift (remove_columns ["text"] preprocessed);
    mret (Some removed)
  else if decide (framework = "spacy") then
    raise (InvalidBenchmark
             [Lit ("Evaluation of text predictions " ++
                   "for SpaCy models is not yet implemented.")])
  else mret None.

(** ** [_get_spacy_predictions_and_labels] *)

Definition _get_spacy_predictions_and_labels {Model : Type}
    (self : TextClassificationBenchmark) (model : Model) (dataset : Dataset)
    : M (list (list float) * list Z) :=
  raise (InvalidBenchmark
           [Lit ("Evaluation of text classification tasks " ++
                 "for SpaCy models is not yet implemented.")]).

(** ** A small tokenizer to run the adapter on

    Each character is a token, its code the token id; id 0 pads. *)

Definition char_ids (s : string) : list Z :=
  (λ a, Z.of_N (Ascii.N_of_ascii a)) <$> String.list_ascii_of_string s.

Definition pads_to_longest (padding : padding_arg) : bool :=
  match padding with
  | PadBool b => b
  | PadStr s => bool_decide (s = "longest")
  end.

Definition char_tokenizer_call (docs : list cell) (truncation : bool)
    (padding : padding_arg) : result pydict :=
  ids ← mapM (λ d, match d with
                   | CStr s => inr (char_ids s)
                   | _ => inl ValueError
                   end) docs;
  let ids := if truncation then take 512 <$> ids else ids in
  let width := max_list (length <$> ids) in
  let fill (pad : Z) (l : list Z) :=
    if pads_to_longest padding then (l ++ replicate (width - length l) pad)%list
    else l in
  mret ({[ "input_ids" := (λ l, CSeq (fill 0%Z l)) <$> ids;
           "attention_mask" := (λ l, CSeq (fill 0%Z (const 1%Z <$> l))) <$> ids ]}
        : pydict).

Definition char_tokenizer : PreTrainedTokenizerBase :=
  {| tok_call := char_tokenizer_call; model_max_length := 512;
     pad_token_id := 0; padding_side := Right |}.

(** ** [_load_data_collator] *)

(** [DataCollatorWithPadding], a dataclass: the fields the constructor
    call does not name keep their defaults. *)
Record DataCollatorWithPadding := {
  dc_tokenizer : option PreTrainedTokenizerBase;
  dc_padding : padding_arg;
  dc_max_length : option nat;
  dc_pad_to_multiple_of : option nat;
  dc_return_tensors : string
}.

Definition new_DataCollatorWithPadding
    (tokenizer : option PreTrainedTokenizerBase) (padding : padding_arg)
    : DataCollatorWithPadding :=
  {| dc_tokenizer := tokenizer; dc_padding := padding;
     dc_max_length := None; dc_pad_to_multiple_of := None;
     dc_return_tensors := "pt" |}.

Definition _load_data_collator (self : TextClassificationBenchmark)
    (tokenizer : option PreTrainedTokenizerBase) : M DataCollatorWithPadding :=
  mret (new_DataCollatorWithPadding tokenizer (PadStr "longest")).

Inductive PaddingStrategy := LONGEST | MAX_LENGTH | DO_NOT_PAD.

Definition padding_strategy (padding : padding_arg) : result PaddingStrategy :=
  match padding with
  | PadBool true => inr LONGEST
  | PadBool false => inr DO_NOT_PAD
  | PadStr s =>
      if decide (s = "longest") then inr LONGEST
      else if decide (s = "max_length") then inr MAX_LENGTH
      else if decide (s = "do_not_pad") then inr DO_NOT_PAD
      else inl ValueError
  end.

(** One sequence brought to [width] with the tokenizer's padding token, on
    the tokenizer's padding side; a sequence already that long is kept. *)
Definition pad_sequence (t : PreTrainedTokenizerBase) (width : nat)
    (l : list Z) : list Z :=
  let fill := replicate (width - length l) (pad_token_id t) in
  match padding_side t with
  | Right => (l ++ fill)%list
  | Left => (fill ++ l)%list
  end.

(** Modelled from the spec: calling the collator on a batch (the class
    [DataCollatorWithPadding] is not part of the adapter's file). The
    batch is the token-id sequences of its examples; the strategy
    [LONGEST] pads to the longest sequence of the batch, [MAX_LENGTH] to
    the configured (else the tokenizer's) maximum length, [DO_NOT_PAD]
    leaves the batch as it is. Without a tokenizer there is nothing to
    pad with. *)
Definition collate (c : DataCollatorWithPadding) (features : list (list Z))
    : result (list (list Z)) :=
  match dc_tokenizer c with
  | None => inl AttributeError
  | Some t =>
      strategy ← padding_strategy (dc_padding c);
      match strategy with
      | LONGEST =>
          mret (pad_sequence t (max_list (length <$> features)) <$> features)
      | MAX_LENGTH =>
          mret (pad_sequence t (default (model_max_length t) (dc_max_length c))
                  <$> features)
      | DO_NOT_PAD => mret features
      end
  end.

(** ** [_compute_metrics] *)

(** Modelled from the spec: the arg-max over the score axis (the array
    library is not part of the adapter's file). One row of binary64
    scores is scanned the way the array library does it: the first maximum
    wins, a NaN counts as maximal, and an empty row is an error. *)
Fixpoint argmax_from (mp : float) (max_ind i : nat) (ip : list float) : nat :=
  match ip with
  | [] => max_ind
  | x :: ip' =>
      if negb (PrimFloat.leb x mp)
      then (if PrimFloat.is_nan x then i else argmax_from x i (S i) ip')
      else argmax_from mp max_ind (S i) ip'
  end.

Definition argmax (row : list float) : result Z :=
  match row with
  | [] => inl ValueError
  | x :: ip =>
      if PrimFloat.is_nan x then inr 0%Z
      else inr (Z.of_nat (argmax_from x 0 1 ip))
  end.

(** [predictions.argmax(axis=-1)] on a two-dimensional array, given by
    its rows. *)
Definition argmax_last_axis (predictions : list (list float)) : result (list Z) :=
  mapM argmax predictions.

Definition count_class (k : Z) (l : list Z) : Z :=
  Z.of_nat (length (filter (λ x, x = k) l)).

Definition sumZ (l : list Z) : Z := foldr Z.add 0%Z l.

Section confusion.
Variables y_true y_pred : list Z.

Definition classes : list Z := remove_dups (y_true ++ y_pred).
Definition n_samples : Z := Z.of_nat (length y_pred).
Definition n_correct : Z :=
  Z.of_nat (length (filter (λ tp : Z * Z, tp.1 = tp.2) (zip y_true y_pred))).
Definition cov_ytyp : Z :=
  (n_correct * n_samples
   - sumZ ((λ k, count_class k y_true * count_class k y_pred) <$> classes))%Z.
Definition cov_ypyp : Z :=
  (n_samples * n_samples
   - sumZ ((λ k, count_class k y_pred * count_class k y_pred) <$> classes))%Z.
Definition cov_ytyt : Z :=
  (n_samples * n_samples
   - sumZ ((λ k, count_class k y_true * count_class k y_true) <$> classes))%Z.

(** Modelled from the spec: the Matthews correlation coefficient of
    two label sequences (the metric is loaded by the base class from the
    metric library and is not part of the adapter's file), in its
    multi-class form over the confusion counts, taken as 0 when either
    sequence has a single class; the value is an exact real number. *)
Definition matthews_corrcoef : R :=
  if decide (cov_ypyp * cov_ytyt = 0)%Z then 0%R
  else (IZR cov_ytyp / sqrt (IZR (cov_ytyt * cov_ypyp)))%R.
End confusion.

(** Modelled from the spec: the metric object registered under ["mcc"],
    whose [compute(predictions, references)] returns a mapping containing
    [matthews_correlation]; the two sequences must be equally long. *)
Definition matthews_correlation : Metric :=
  {| compute := λ predictions references,
       if decide (length predictions = length references)
       then mret ({[ "matthews_correlation" :=
                       matthews_corrcoef references predictions ]}
                  : gmap string R)
       else inl ValueError |}.

Definition _compute_metrics (self : TextClassificationBenchmark)
    (predictions_and_labels : list (list float) * list Z)
    (id2label : option (list string)) : M (gmap string R) :=
  let '(predictions, labels) := predictions_and_labels in
  predictions ← lift (argmax_last_axis predictions);
  metric ← lift (dict_getitem (_metrics self) "mcc");
  results ← lift (compute metric predictions labels);
  mcc ← lift (dict_getitem results "matthews_correlation");
  mret ({[ "mcc" := mcc ]} : gmap string R).

(** ** Sums, for reasoning about the confusion counts *)

(** The indicator of a decidable proposition. *)
Definition ind (P : Prop) `{Decision P} : Z := if decide P then 1%Z else 0%Z.

(** Double sums over the samples. *)
Definition sum2 {A} (g : A → A → Z) (l : list A) : Z :=
  sumZ ((λ a, sumZ ((λ b, g a b) <$> l)) <$> l).

(** ** Running examples *)

Definition bench : TextClassificationBenchmark :=
  {| _metrics := {[ "mcc" := matthews_correlation ]} |}.

Definition pos_neg : gmap string Z := {[ "pos" := 1%Z; "neg" := 0%Z ]}.

Definition one_row : Dataset :=
  from_dict {[ "text" := [CStr "a"]; "label" := [CStr "pos"] ]} 1.

Definition two_rows : pydict :=
  {[ "text" := [CStr "a"; CStr "bcd"]; "label" := [CStr "pos"; CStr "neg"] ]}.

(** A store holding one batch object. *)
Definition store_two_rows : heap := {[ 1%positive := two_rows ]}.

Definition pytorch_kwargs : gmap string pyobj :=
  {[ "tokenizer" := OTokenizer char_tokenizer;
     "config" := OConfig {| label2id := pos_neg |} ]}.

(** ** What the properties are stated with *)

(** What the adapter needs from the tokenizer: on every non-empty batch of
    documents it returns a dictionary with the columns [fields], among
    them the token ids and the attention mask but no label, each column
    with one entry per document. *)
Definition tokenizes (t : PreTrainedTokenizerBase) (fields : gset string) : Prop :=
  "input_ids" ∈ fields ∧ "attention_mask" ∈ fields ∧ ("label" ∉ fields)
  ∧ ∀ docs : list string, docs ≠ [] →
      ∃ enc : pydict,
        tok_call t (CStr <$> docs) true (PadBool true) = inr enc
        ∧ dom enc = fields
        ∧ map_Forall (λ _ c, length c = length docs) enc.

(** The column [k] the tokenizer produces for the texts of a dataset of
    [n] rows, batch after batch. *)
Definition tokenised_column (t : PreTrainedTokenizerBase) (texts : list cell)
    (k : string) (n : nat) : list cell :=
  mjoin ((λ start,
            match tok_call t (slice start batch_size texts) true
                    (PadBool true) with
            | inr enc => default [] (enc !! k)
            | inl _ => []
            end) <$> range 0 n batch_size).

(** A computation that only adds objects to the store. *)
Definition extends_store {A} (m : M A) : Prop := ∀ h : heap, h ⊆ (m h).1.

(** A computation whose result does not depend on the store. *)
Definition store_independent {A} (m : M A) : Prop :=
  ∃ r : result A, ∀ h : heap, (m h).2 = r.

(** A computation that leaves the store as it is. *)
Definition keeps_store {A} (m : M A) : Prop := ∀ h : heap, (m h).1 = h.

(** What one call of the mapped function may do: change the batch it is
    given and add objects, and return a result, merged over the batch, that
    depends on the contents of the batch only. *)
Definition batch_local (function : ref → M ref) : Prop :=
  ∀ batch : pydict, ∃ merged : result pydict,
    ∀ (h : heap) (r : ref), h !! r = Some batch →
      let out := function r h in
      delete r h ⊆ out.1
      ∧ match out.2 with
        | inr r' => inr (deref out.1 r' ∪ deref out.1 r)
        | inl e => inl e
        end = merged.

(** ** Store-free readings of the mapped functions *)

(** The message of the [InvalidBenchmark] that [_create_numerical_labels]
    raises. *)
Definition label_absent_message (labels : list cell) (label2id : gmap string Z)
    : list fragment :=
  [Lit "One of the labels in the dataset, ";
   ReprColumn labels;
   Lit ", does not occur ";
   Lit "in the label2id dictionary ";
   ReprDict label2id;
   Lit "."].

(** What [tokenise] makes of a batch with the contents [batch], merged
    over that batch. *)
Definition tokenise_merged (tokenizer : pyobj) (batch : pydict)
    : result pydict :=
  match batch !! "text" with
  | None => inl (KeyError (CStr "text"))
  | Some doc =>
      match call tokenizer doc true (PadBool true) with
      | inl e => inl e
      | inr encoding => inr (encoding ∪ batch)
      end
  end.

(** What [_create_numerical_labels] makes of a batch with the contents
    [batch]. *)
Definition numericalise_merged (label2id : gmap string Z) (batch : pydict)
    : result pydict :=
  match batch !! "label" with
  | None => inl (KeyError (CStr "label"))
  | Some labels =>
      match mapM (label2id_getitem label2id) labels with
      | inr ids => inr (<["label" := CInt <$> ids]> batch)
      | inl (KeyError _) =>
          inl (InvalidBenchmark (label_absent_message labels label2id))
      | inl e => inl e
      end
  end.

(** [function] makes [merged batch] of every batch object with the
    contents [batch], whatever else the store holds. *)
Definition batch_result (function : ref → M ref)
    (merged : pydict → result pydict) : Prop :=
  ∀ (batch : pydict) (h : heap) (r : ref), h !! r = Some batch →
    match (function r h).2 with
    | inr r' => inr (deref (function r h).1 r' ∪ deref (function r h).1 r)
    | inl e => inl e
    end = merged batch.

(** The batches of a table mapped one after the other, without a store. *)
Definition map_batches (merged : pydict → result pydict) (ds : Dataset)
    : result Dataset :=
  if decide (num_rows ds = 0) then inr ds
  else
    batches ← mapM (λ start, merged (slice start batch_size <$> data ds))
                   (range 0 (num_rows ds) batch_size);
    write_batches batches.

(** A store holding one batch object without a label column. *)
Definition store_no_label : heap :=
  {[ 1%positive := {[ "text" := [CStr "a"] ]} ]}.

(** A table without a text column, and one without a label column. *)
Definition no_text_rows : Dataset :=
  from_dict {[ "label" := [CStr "pos"] ]} 1.

Definition no_label_rows : Dataset :=
  from_dict {[ "text" := [CStr "a"] ]} 1.

(** A tokenizer that rejects every batch. *)
Definition failing_tokenizer : PreTrainedTokenizerBase :=
  {| tok_call := λ _ _ _, inl ValueError; model_max_length := 512;
     pad_token_id := 0; padding_side := Right |}.

(** A configuration that knows one label only. *)
Definition only_pos : Config := {| label2id := {[ "pos" := 1%Z ]} |}.

(** A table with a column besides the text and the label. *)
Definition with_id_rows : Dataset :=
  from_dict {[ "text" := [CStr "a"; CStr "bcd"];
               "label" := [CStr "pos"; CStr "neg"];
               "id" := [CInt 7; CInt 8] ]} 2.

(** A metric whose result lacks the entry the adapter reads. *)
Definition accuracy_only_metric : Metric :=
  {| compute := λ _ _, inr ({[ "accuracy" := 1%R ]} : gmap string R) |}.

Definition accuracy_bench : TextClassificationBenchmark :=
  {| _metrics := {[ "mcc" := accuracy_only_metric ]} |}.

(** * Properties *)

(** ** The monad, step by step *)

Lemma bind_ok {A B} (m : M A) (f : A → M B) h h' a :
  m h = (h', inr a) → (m ≫= f) h = f a h'.
Proof. intros E. unfold mbind, M_bind. by rewrite E. Qed.

Lemma bind_raise {A B} (m : M A) (f : A → M B) h h' e :
  m h = (h', inl e) → (m ≫= f) h = (h', inl e).
Proof. intros E. unfold mbind, M_bind. by rewrite E. Qed.

Lemma getitem_ok (h : heap) r (d : pydict) k c :
  h !! r = Some d → d !! k = Some c → getitem r k h = (h, inr c).
Proof. intros Hr Hk. unfold getitem, deref. rewrite Hr. simpl. by rewrite Hk. Qed.

(** ** Label lookup over a column *)

Lemma mapM_label2id_present (label2id : gmap string Z) (labels : list string) :
  Forall (λ s, is_Some (label2id !! s)) labels →
  ∃ ids, mapM (label2id_getitem label2id) (CStr <$> labels) = inr ids
         ∧ Forall2 (λ s i, label2id !! s = Some i) labels ids.
Proof.
  induction 1 as [|s labels [i Hi] _ (ids & E & F)].
  - exists []. split; [done | constructor].
  - exists (i :: ids). split; [| by constructor].
    cbn. rewrite Hi. cbn. fold (mapM (label2id_getitem label2id)).
    by rewrite E.
Qed.

Lemma mapM_label2id_absent (label2id : gmap string Z) (labels : list string) :
  Exists (λ s, label2id !! s = None) labels →
  ∃ s, mapM (label2id_getitem label2id) (CStr <$> labels)
         = inl (KeyError (CStr s))
       ∧ s ∈ labels ∧ label2id !! s = None.
Proof.
  induction labels as [|s labels IH]; intros Hex; [by inversion Hex |].
  destruct (label2id !! s) as [i|] eqn:Hs.
  - assert (Exists (λ s, label2id !! s = None) labels) as Hex'.
    { inversion Hex; [congruence | done]. }
    destruct (IH Hex') as (s' & E & Hin & Hnone).
    exists s'. split; [| split; [by right | done]].
    cbn. rewrite Hs. cbn. fold (mapM (label2id_getitem label2id)).
    by rewrite E.
  - exists s. split; [| split; [by left | done]].
    cbn. by rewrite Hs.
Qed.

(** ** [_create_numerical_labels] *)

(** C1. On a batch whose labels are all keys of [label2id], the call returns
    the very batch it was given, its label column now holding, position by
    position, the integer [label2id] gives for the original label; the
    other columns, and every other object, are as before. *)
Theorem create_numerical_labels_numericalises
    (self : TextClassificationBenchmark) (label2id : gmap string Z)
    (h : heap) (examples : ref) (batch : pydict) (labels : list string) :
  h !! examples = Some batch →
  batch !! "label" = Some (CStr <$> labels) →
  Forall (λ s, is_Some (label2id !! s)) labels →
  ∃ (ids : list Z) (h' : heap),
    _create_numerical_labels self examples label2id h = (h', inr examples)
    ∧ h' = <[examples := <["label" := CInt <$> ids]> batch]> h
    ∧ deref h' examples !! "label" = Some (CInt <$> ids)
    ∧ Forall2 (λ s i, label2id !! s = Some i) labels ids
    ∧ length ids = length labels
    ∧ (∀ k, k ≠ "label" → deref h' examples !! k = batch !! k)
    ∧ (∀ r, r ≠ examples → h' !! r = h !! r).
Proof.
  intros Hex Hlab Hall.
  destruct (mapM_label2id_present label2id labels Hall) as (ids & E & F).
  exists ids, (<[examples := <["label" := CInt <$> ids]> batch]> h).
  split; [| split; [done | split; [| split; [done | split; [| split]]]]].
  - unfold _create_numerical_labels, try_except_KeyError.
    unfold mbind at 1, M_bind.
    rewrite (bind_ok _ _ h h (CStr <$> labels)) by by eapply getitem_ok.
    rewrite (bind_ok _ _ h h ids) by (unfold lift; by rewrite E).
    unfold setitem, deref. rewrite Hex. reflexivity.
  - unfold deref. rewrite lookup_insert_eq. cbn. apply lookup_insert_eq.
  - symmetry. by eapply Forall2_length.
  - intros k Hk. unfold deref. rewrite lookup_insert_eq. cbn.
    by apply lookup_insert_ne.
  - intros r Hr. by apply lookup_insert_ne.
Qed.

Lemma create_numerical_labels_numericalises_witness :
  ∃ (ids : list Z) (h' : heap),
    _create_numerical_labels bench 1%positive pos_neg store_two_rows
      = (h', inr 1%positive)
    ∧ h' = <[1%positive := <["label" := CInt <$> ids]> two_rows]> store_two_rows
    ∧ deref h' 1%positive !! "label" = Some (CInt <$> ids)
    ∧ Forall2 (λ s i, pos_neg !! s = Some i) ["pos"; "neg"] ids
    ∧ length ids = length ["pos"; "neg"]
    ∧ (∀ k, k ≠ "label" → deref h' 1%positive !! k = two_rows !! k)
    ∧ (∀ r, r ≠ 1%positive → h' !! r = store_two_rows !! r).
Proof.
  apply (create_numerical_labels_numericalises bench pos_neg
           store_two_rows 1%positive two_rows ["pos"; "neg"]).
  - reflexivity.
  - reflexivity.
  - repeat constructor; eexists; reflexivity.
Defined.

(** C2. On a batch with a label that is no key of [label2id], the call
    raises [InvalidBenchmark] (naming the label column and the mapping) and
    leaves the store, hence the batch and its label column, as it was. *)
Theorem create_numerical_labels_absent_label
    (self : TextClassificationBenchmark) (label2id : gmap string Z)
    (h : heap) (examples : ref) (batch : pydict) (labels : list string) :
  h !! examples = Some batch →
  batch !! "label" = Some (CStr <$> labels) →
  Exists (λ s, label2id !! s = None) labels →
  _create_numerical_labels self examples label2id h
    = (h, inl (InvalidBenchmark
                 [Lit "One of the labels in the dataset, ";
                  ReprColumn (CStr <$> labels);
                  Lit ", does not occur ";
                  Lit "in the label2id dictionary ";
                  ReprDict label2id;
                  Lit "."])).
Proof.
  intros Hex Hlab Habs.
  destruct (mapM_label2id_absent label2id labels Habs) as (s & E & _ & _).
  unfold _create_numerical_labels, try_except_KeyError.
  unfold mbind at 1, M_bind.
  rewrite (bind_ok _ _ h h (CStr <$> labels)) by by eapply getitem_ok.
  rewrite (bind_raise _ _ h h (KeyError (CStr s))) by (unfold lift; by rewrite E).
  rewrite (bind_ok _ _ h h (CStr <$> labels)) by by eapply getitem_ok.
  reflexivity.
Qed.

Lemma create_numerical_labels_absent_label_witness :
  _create_numerical_labels bench 1%positive {[ "pos" := 1%Z ]} store_two_rows
    = (store_two_rows,
       inl (InvalidBenchmark
              [Lit "One of the labels in the dataset, ";
               ReprColumn (CStr <$> ["pos"; "neg"]);
               Lit ", does not occur ";
               Lit "in the label2id dictionary ";
               ReprDict {[ "pos" := 1%Z ]};
               Lit "."])).
Proof.
  apply (create_numerical_labels_absent_label bench {[ "pos" := 1%Z ]}
           store_two_rows 1%positive two_rows ["pos"; "neg"]).
  - reflexivity.
  - reflexivity.
  - right. left. reflexivity.
Defined.

(** ** The unsupported SpaCy paths and the fall-through *)

(** C5. With framework ["spacy"], preprocessing raises [InvalidBenchmark],
    whatever the dataset and the keyword arguments; the store is untouched. *)
Theorem preprocess_data_spacy_raises
    (self : TextClassificationBenchmark) (dataset : Dataset)
    (kwargs : gmap string pyobj) (h : heap) :
  _preprocess_data self dataset "spacy" kwargs h
    = (h, inl (InvalidBenchmark
                 [Lit "Evaluation of text predictions for SpaCy models is not yet implemented."])).
Proof. reflexivity. Qed.

(** C6. Asking for SpaCy predictions and labels raises [InvalidBenchmark]
    with a message saying the evaluation is not yet implemented, for every
    model and dataset: no pair is ever returned. *)
Theorem get_spacy_predictions_and_labels_raises
    {Model : Type} (self : TextClassificationBenchmark) (model : Model)
    (dataset : Dataset) (h : heap) :
  ∃ msg : string,
    _get_spacy_predictions_and_labels self model dataset h
      = (h, inl (InvalidBenchmark [Lit msg]))
    ∧ msg = "Evaluation of text classification tasks for SpaCy models is "
            ++ "not yet implemented" ++ "."
    ∧ ∀ pair, _get_spacy_predictions_and_labels self model dataset h
              ≠ (h, inr pair).
Proof.
  eexists. split; [reflexivity |]. split; [reflexivity |].
  intros pair. unfold _get_spacy_predictions_and_labels, raise. congruence.
Qed.

(** C10. With a framework tag that is neither ["pytorch"] nor ["spacy"],
    preprocessing raises nothing and returns [None]. *)
Theorem preprocess_data_other_framework_returns_None
    (self : TextClassificationBenchmark) (dataset : Dataset)
    (framework : string) (kwargs : gmap string pyobj) (h : heap) :
  framework ≠ "pytorch" → framework ≠ "spacy" →
  _preprocess_data self dataset framework kwargs h = (h, inr None).
Proof.
  intros Hp Hs. unfold _preprocess_data.
  destruct (decide (framework = "pytorch")); [done |].
  destruct (decide (framework = "spacy")); [done |].
  reflexivity.
Qed.

Lemma preprocess_data_other_framework_returns_None_witness :
  _preprocess_data bench one_row "jax" pytorch_kwargs ∅ = (∅, inr None)
  ∧ _preprocess_data bench one_row "" ∅ ∅ = (∅, inr None).
Proof.
  split.
  - apply (preprocess_data_other_framework_returns_None
             bench one_row "jax" pytorch_kwargs ∅); discriminate.
  - apply (preprocess_data_other_framework_returns_None
             bench one_row "" ∅ ∅); discriminate.
Defined.

(** ** [_load_data_collator] *)

Lemma pad_sequence_length t width l :
  length (pad_sequence t width l) = length l `max` width.
Proof.
  unfold pad_sequence.
  destruct (padding_side t); rewrite length_app, length_replicate; lia.
Qed.

Lemma collate_longest t (c : DataCollatorWithPadding) features :
  dc_tokenizer c = Some t → dc_padding c = PadStr "longest" →
  collate c features
    = inr (pad_sequence t (max_list (length <$> features)) <$> features).
Proof. intros Ht Hp. unfold collate. rewrite Ht, Hp. reflexivity. Qed.

(** C7. For a present or absent tokenizer the call returns a
    [DataCollatorWithPadding] holding that tokenizer, with padding
    ["longest"] (the strategy [LONGEST]) and no maximum length; with a
    tokenizer, collating a batch brings every sequence, by the tokenizer's
    padding, to the length of the longest sequence of that batch, so two
    batches with different longest sequences are padded to different
    lengths. *)
Theorem load_data_collator_pads_to_longest
    (self : TextClassificationBenchmark)
    (tokenizer : option PreTrainedTokenizerBase) (h : heap) :
  ∃ c : DataCollatorWithPadding,
    _load_data_collator self tokenizer h = (h, inr c)
    ∧ dc_tokenizer c = tokenizer
    ∧ dc_padding c = PadStr "longest"
    ∧ padding_strategy (dc_padding c) = inr LONGEST
    ∧ dc_max_length c = None
    ∧ ∀ t (features : list (list Z)), tokenizer = Some t →
        let width := max_list (length <$> features) in
        collate c features = inr (pad_sequence t width <$> features)
        ∧ Forall (λ l, length l = width) (pad_sequence t width <$> features).
Proof.
  eexists. split; [reflexivity |]. repeat (split; [reflexivity |]).
  intros t features -> width. split.
  - by apply collate_longest.
  - apply Forall_fmap, Forall_forall. intros l Hl. cbn.
    rewrite pad_sequence_length.
    assert (length l ≤ width)%nat; [| lia].
    apply max_list_elem_of_le, list_elem_of_fmap. eauto.
Qed.

Lemma load_data_collator_pads_to_longest_witness :
  ∃ c : DataCollatorWithPadding,
    _load_data_collator bench (Some char_tokenizer) ∅ = (∅, inr c)
    ∧ collate c [[5]; [6; 7; 8]]%Z = inr [[5; 0; 0]; [6; 7; 8]]%Z
    ∧ collate c [[5]; [6; 7]]%Z = inr [[5; 0]; [6; 7]]%Z.
Proof.
  destruct (load_data_collator_pads_to_longest bench (Some char_tokenizer) ∅)
    as (c & E & _ & _ & _ & _ & Hc).
  exists c. split; [exact E |]. split.
  - exact (proj1 (Hc char_tokenizer [[5]; [6; 7; 8]]%Z eq_refl)).
  - exact (proj1 (Hc char_tokenizer [[5]; [6; 7]]%Z eq_refl)).
Defined.

(** ** Sums of integers over a list *)

Section sums.
Context {A : Type}.
Implicit Types (f g : A → Z) (l : list A).
Local Open Scope Z_scope.

Lemma sumZ_le f g l :
  (∀ a, a ∈ l → f a ≤ g a) → sumZ (f <$> l) ≤ sumZ (g <$> l).
Proof.
  induction l as [|a l IH]; intros Hle; cbn; [lia |].
  pose proof (Hle a ltac:(left)).
  assert (sumZ (f <$> l) ≤ sumZ (g <$> l)); [| unfold sumZ in *; lia].
  apply IH. intros b Hb. apply Hle. by right.
Qed.

Lemma sumZ_ext f g l :
  (∀ a, a ∈ l → f a = g a) → sumZ (f <$> l) = sumZ (g <$> l).
Proof.
  intros Heq. apply Z.le_antisymm; apply sumZ_le; intros a Ha;
    rewrite (Heq a Ha); lia.
Qed.

Lemma sumZ_add f g l :
  sumZ ((λ a, f a + g a) <$> l) = sumZ (f <$> l) + sumZ (g <$> l).
Proof. induction l as [|a l IH]; cbn; [done |]. unfold sumZ in *. lia. Qed.

Lemma sumZ_sub f g l :
  sumZ ((λ a, f a - g a) <$> l) = sumZ (f <$> l) - sumZ (g <$> l).
Proof. induction l as [|a l IH]; cbn; [done |]. unfold sumZ in *. lia. Qed.

Lemma sumZ_scale_l c f l :
  sumZ ((λ a, c * f a) <$> l) = c * sumZ (f <$> l).
Proof. induction l as [|a l IH]; cbn; [lia |]. unfold sumZ in *. lia. Qed.

Lemma sumZ_scale_r c f l :
  sumZ ((λ a, f a * c) <$> l) = sumZ (f <$> l) * c.
Proof. induction l as [|a l IH]; cbn; [lia |]. unfold sumZ in *. lia. Qed.

Lemma sumZ_const c l : sumZ ((λ _, c) <$> l) = c * Z.of_nat (length l).
Proof. induction l as [|a l IH]; cbn; [lia |]. unfold sumZ in *. lia. Qed.

Lemma length_filter_sumZ (P : A → Prop) `{∀ a, Decision (P a)} l :
  Z.of_nat (length (filter P l)) = sumZ ((λ a, ind (P a)) <$> l).
Proof.
  induction l as [|a l IH]; cbn; [done |].
  unfold filter in IH |- *. cbn. unfold ind at 1.
  destruct (decide (P a)); cbn; unfold sumZ in *; lia.
Qed.
End sums.

Lemma sumZ_swap {A B} (g : A → B → Z) (l : list A) (k : list B) :
  sumZ ((λ a, sumZ ((λ b, g a b) <$> k)) <$> l)
  = sumZ ((λ b, sumZ ((λ a, g a b) <$> l)) <$> k).
Proof.
  induction l as [|a l IH]; cbn.
  - induction k; cbn; [done |]. unfold sumZ in *. lia.
  - fold (sumZ ((λ a0 : A, sumZ ((λ b : B, g a0 b) <$> k)) <$> l)).
    rewrite IH.
    change (sumZ ((λ b, g a b) <$> k)
            + sumZ ((λ b : B, sumZ ((λ a0 : A, g a0 b) <$> l)) <$> k)
            = sumZ ((λ b : B, g a b + sumZ ((λ a0, g a0 b) <$> l)) <$> k))%Z.
    by rewrite sumZ_add.
Qed.

Section classes_and_pairs.
Local Open Scope Z_scope.

(** A class [k] of a duplicate-free list picks out its own term. *)
Lemma sumZ_ind_pick (K : list Z) (f : Z → Z) (t : Z) :
NoDup K → t ∈ K → sumZ ((λ k, ind (t = k) * f k) <$> K) = f t.
Proof.
induction 1 as [|k K Hk Hnd IH]; intros Ht; [by inversion Ht |].
cbn. fold (sumZ ((λ k0, ind (t = k0) * f k0) <$> K)).
unfold ind at 1. destruct (decide (t = k)) as [->|Hne].
- rewrite (sumZ_ext _ (λ _, 0)), sumZ_const; [lia |].
  intros a Ha. unfold ind. destruct (decide (k = a)) as [->|]; [done | lia].
- rewrite IH; [lia |]. inversion Ht; subst; done.
Qed.

Lemma count_class_sumZ k l : count_class k l = sumZ ((λ x, ind (x = k)) <$> l).
Proof. unfold count_class. apply (length_filter_sumZ (λ x, x = k)). Qed.

Lemma sumZ_classes (K ts : list Z) (f : Z → Z) :
NoDup K → ts ⊆ K →
sumZ ((λ k, count_class k ts * f k) <$> K) = sumZ (f <$> ts).
Proof.
intros Hnd Hsub.
rewrite (sumZ_ext _ (λ k, sumZ ((λ t, ind (t = k) * f k) <$> ts))).
2: { intros k _. rewrite count_class_sumZ, <- sumZ_scale_r. done. }
rewrite sumZ_swap. apply sumZ_ext. intros t Ht.
apply sumZ_ind_pick; [done | by apply Hsub].
Qed.

Lemma sumZ_fmap {A B} (h : A → B) (f : B → Z) (l : list A) :
sumZ (f <$> (h <$> l)) = sumZ ((λ a, f (h a)) <$> l).
Proof. by rewrite <- list_fmap_compose. Qed.

Lemma sum2_le {A} (f g : A → A → Z) l :
(∀ a b, f a b ≤ g a b) → sum2 f l ≤ sum2 g l.
Proof. intros Hle. apply sumZ_le. intros a _. apply sumZ_le. auto. Qed.

Lemma sum2_nonneg {A} (f : A → A → Z) l :
(∀ a b, 0 ≤ f a b) → 0 ≤ sum2 f l.
Proof.
intros Hf. replace 0 with (sum2 (λ _ _ : A, 0) l).
- by apply sum2_le.
- unfold sum2. rewrite (sumZ_ext _ (λ _, 0)).
  + rewrite sumZ_const. lia.
  + intros a _. rewrite sumZ_const. lia.
Qed.

Lemma sum2_ext {A} (f g : A → A → Z) l :
(∀ a b, f a b = g a b) → sum2 f l = sum2 g l.
Proof. intros Heq. apply sumZ_ext. intros a _. apply sumZ_ext. auto. Qed.

Lemma sum2_add {A} (f g : A → A → Z) l :
sum2 (λ a b, f a b + g a b) l = sum2 f l + sum2 g l.
Proof.
unfold sum2. rewrite <- sumZ_add. apply sumZ_ext. intros a _.
apply sumZ_add.
Qed.

Lemma sum2_sub {A} (f g : A → A → Z) l :
sum2 (λ a b, f a b - g a b) l = sum2 f l - sum2 g l.
Proof.
unfold sum2. rewrite <- sumZ_sub. apply sumZ_ext. intros a _.
apply sumZ_sub.
Qed.

Lemma sum2_scale {A} c (f : A → A → Z) l :
sum2 (λ a b, c * f a b) l = c * sum2 f l.
Proof.
unfold sum2. rewrite <- sumZ_scale_l. apply sumZ_ext. intros a _.
apply sumZ_scale_l.
Qed.

Lemma sum2_transpose {A} (g : A → A → Z) l :
sum2 (λ a b, g b a) l = sum2 g l.
Proof. unfold sum2. by rewrite sumZ_swap. Qed.

Lemma sum2_one {A} (l : list A) :
sum2 (λ _ _, 1) l = Z.of_nat (length l) * Z.of_nat (length l).
Proof.
unfold sum2. rewrite (sumZ_ext _ (λ _, Z.of_nat (length l))).
- rewrite sumZ_const. lia.
- intros a _. rewrite sumZ_const. lia.
Qed.

Section pairs.
Variables y_true y_pred : list Z.
Hypothesis same_length : length y_true = length y_pred.

Local Abbreviation samples := (zip y_true y_pred).

Lemma samples_true : samples.*1 = y_true.
Proof. apply fst_zip. lia. Qed.

Lemma samples_pred : samples.*2 = y_pred.
Proof. apply snd_zip. lia. Qed.

Lemma samples_length : length samples = length y_pred.
Proof. rewrite <- samples_pred at 2. by rewrite length_fmap. Qed.

Lemma true_classes : y_true ⊆ classes y_true y_pred.
Proof.
  intros t Ht. apply elem_of_remove_dups, elem_of_app. by left.
Qed.

Lemma pred_classes : y_pred ⊆ classes y_true y_pred.
Proof.
  intros t Ht. apply elem_of_remove_dups, elem_of_app. by right.
Qed.

Lemma classes_NoDup : NoDup (classes y_true y_pred).
Proof. apply NoDup_remove_dups. Qed.

(** [Σ_k count k l1 * count k l2], over sample pairs. *)
Lemma sum_classes_pairs (p1 p2 : Z * Z → Z) l1 l2 :
  l1 = p1 <$> samples → l2 = p2 <$> samples →
  l1 ⊆ classes y_true y_pred →
  sumZ ((λ k, count_class k l1 * count_class k l2)
          <$> classes y_true y_pred)
  = sum2 (λ s s', ind (p2 s' = p1 s)) samples.
Proof.
  intros E1 E2 Hsub.
  rewrite (sumZ_classes _ l1 (λ k, count_class k l2)) by
    (done || apply classes_NoDup).
  rewrite E1 at 1. rewrite sumZ_fmap. apply sumZ_ext. intros s _.
  rewrite count_class_sumZ. rewrite E2. by rewrite sumZ_fmap.
Qed.

Lemma n_samples_sq :
  n_samples y_pred * n_samples y_pred = sum2 (λ _ _, 1) samples.
Proof. rewrite sum2_one, samples_length. done. Qed.

Lemma cov_ytyt_pairs :
  cov_ytyt y_true y_pred = sum2 (λ s s', ind (s.1 ≠ s'.1)) samples.
Proof.
  unfold cov_ytyt.
  rewrite (sum_classes_pairs fst fst), n_samples_sq, <- sum2_sub;
    [| by rewrite samples_true .. | apply true_classes].
  apply sum2_ext. intros s s'. unfold ind.
  repeat case_decide; congruence || lia.
Qed.

Lemma cov_ypyp_pairs :
  cov_ypyp y_true y_pred = sum2 (λ s s', ind (s.2 ≠ s'.2)) samples.
Proof.
  unfold cov_ypyp.
  rewrite (sum_classes_pairs snd snd), n_samples_sq, <- sum2_sub;
    [| by rewrite samples_pred .. | apply pred_classes].
  apply sum2_ext. intros s s'. unfold ind.
  repeat case_decide; congruence || lia.
Qed.

Lemma cov_ytyp_pairs :
  cov_ytyp y_true y_pred
  = sum2 (λ s s', ind (s.1 = s.2) - ind (s'.2 = s.1)) samples.
Proof.
  unfold cov_ytyp.
  rewrite (sum_classes_pairs fst snd);
    [| by rewrite ?samples_true, ?samples_pred .. | apply true_classes].
  rewrite sum2_sub. f_equal.
  unfold n_correct, n_samples.
  rewrite (length_filter_sumZ (λ tp : Z * Z, tp.1 = tp.2)).
  rewrite <- samples_length, <- sumZ_scale_r. apply sumZ_ext.
  intros s _. rewrite sumZ_const. done.
Qed.

(** The covariances obey the Cauchy-Schwarz bound. *)
Lemma cov_bound :
  0 ≤ cov_ytyt y_true y_pred
  ∧ 0 ≤ cov_ypyp y_true y_pred
  ∧ cov_ytyp y_true y_pred * cov_ytyp y_true y_pred
    ≤ cov_ytyt y_true y_pred * cov_ypyp y_true y_pred.
Proof.
  rewrite cov_ytyt_pairs, cov_ypyp_pairs, cov_ytyp_pairs.
  set (x := λ s s' : Z * Z, ind (s.1 ≠ s'.1)).
  set (y := λ s s' : Z * Z, ind (s.2 ≠ s'.2)).
  set (g := λ s s' : Z * Z, ind (s.1 = s.2) - ind (s'.2 = s.1)).
  set (xy := λ s s' : Z * Z, x s s' * y s s').
  assert (0 ≤ sum2 xy samples) as H0.
  { apply sum2_nonneg. intros s s'.
    unfold xy, x, y, ind. repeat case_decide; lia. }
  assert (sum2 xy samples ≤ sum2 x samples) as Hx.
  { apply sum2_le. intros s s'. unfold xy, x, y, ind.
    repeat case_decide; lia. }
  assert (sum2 xy samples ≤ sum2 y samples) as Hy.
  { apply sum2_le. intros s s'. unfold xy, x, y, ind.
    repeat case_decide; lia. }
  assert (2 * sum2 g samples = sum2 (λ s s', g s s' + g s' s) samples) as H2.
  { rewrite sum2_add, sum2_transpose. lia. }
  assert (2 * sum2 g samples ≤ 2 * sum2 xy samples) as Hup.
  { rewrite H2, <- sum2_scale. apply sum2_le. intros [t p] [t' p'].
    unfold xy, x, y, g, ind. cbn. repeat case_decide; congruence || lia. }
  assert (- (2 * sum2 xy samples) ≤ 2 * sum2 g samples) as Hlo.
  { rewrite H2.
    replace (- (2 * sum2 xy samples)) with ((-2) * sum2 xy samples) by lia.
    rewrite <- sum2_scale. apply sum2_le. intros [t p] [t' p'].
    unfold xy, x, y, g, ind. cbn. repeat case_decide; congruence || lia. }
  split; [lia |]. split; [lia |]. nia.
Qed.
End pairs.

Lemma matthews_corrcoef_bounds (y_true y_pred : list Z) :
length y_true = length y_pred →
(-1 <= matthews_corrcoef y_true y_pred <= 1)%R.
Proof.
intros Hlen. unfold matthews_corrcoef.
destruct (cov_bound y_true y_pred Hlen) as (Ht & Hp & Hcs).
case_decide as Hz; [lra |].
set (a := cov_ytyp y_true y_pred) in *.
set (d := cov_ytyt y_true y_pred * cov_ypyp y_true y_pred) in *.
assert (0 < d) as Hd by (subst d; nia).
assert (0 < sqrt (IZR d))%R as Hs by (apply sqrt_lt_R0, IZR_lt; lia).
assert (Rabs (IZR a) <= sqrt (IZR d))%R as Habs.
{ rewrite <- sqrt_Rsqr_abs. apply sqrt_le_1_alt.
  unfold Rsqr. rewrite <- mult_IZR. apply IZR_le. lia. }
assert (- sqrt (IZR d) <= IZR a <= sqrt (IZR d))%R as [Hlo Hhi].
{ unfold Rabs in Habs. destruct (Rcase_abs (IZR a)); lra. }
split.
- apply (Rmult_le_reg_r (sqrt (IZR d))); [done |].
  unfold Rdiv. rewrite Rmult_assoc, Rinv_l by lra. lra.
- apply (Rmult_le_reg_r (sqrt (IZR d))); [done |].
  unfold Rdiv. rewrite Rmult_assoc, Rinv_l by lra. lra.
Qed.
End classes_and_pairs.

(** ** [_compute_metrics] *)

Lemma lift_bind_ok {A B} (r : result A) (f : A → M B) h a :
  r = inr a → (lift r ≫= f) h = f a h.
Proof. intros ->. reflexivity. Qed.

Lemma lift_bind_raise {A B} (r : result A) (f : A → M B) h e :
  r = inl e → (lift r ≫= f) h = (h, inl e).
Proof. intros ->. reflexivity. Qed.

Lemma argmax_from_lt ip : ∀ mp max_ind i,
  (max_ind < i)%nat → (argmax_from mp max_ind i ip < i + length ip)%nat.
Proof.
  induction ip as [|x ip IH]; intros mp max_ind i Hlt; cbn; [lia |].
  destruct (negb (PrimFloat.leb x mp)).
  - destruct (PrimFloat.is_nan x); [lia |].
    specialize (IH x i (S i)). lia.
  - specialize (IH mp max_ind (S i)). lia.
Qed.

Lemma argmax_in_range row :
  row ≠ [] → ∃ k, argmax row = inr k ∧ (0 ≤ k < Z.of_nat (length row))%Z.
Proof.
  destruct row as [|x ip]; [done |]. intros _. cbn.
  destruct (PrimFloat.is_nan x); eexists; (split; [reflexivity |]); [lia |].
  pose proof (argmax_from_lt ip x 0%nat 1%nat). lia.
Qed.

Lemma argmax_last_axis_in_range (predictions : list (list float)) (C : nat) :
  (0 < C)%nat → Forall (λ row, length row = C) predictions →
  ∃ classes, argmax_last_axis predictions = inr classes
             ∧ length classes = length predictions
             ∧ Forall (λ k, 0 ≤ k < Z.of_nat C)%Z classes.
Proof.
  intros HC. induction 1 as [|row predictions Hrow _ (classes & E & Hlen & Hin)].
  - exists []. by repeat split.
  - destruct (argmax_in_range row) as (k & Ek & Hk).
    { intros ->. cbn in Hrow. lia. }
    exists (k :: classes). unfold argmax_last_axis in *. cbn.
    rewrite Ek. cbn. fold (mapM argmax). rewrite E. cbn.
    split; [done |]. split; [by rewrite Hlen |].
    constructor; [by rewrite <- Hrow | done].
Qed.

Lemma compute_metrics_with_mcc (self : TextClassificationBenchmark)
    (predictions : list (list float)) (labels : list Z)
    (id2label : option (list string)) (N C : nat) (h : heap) :
  _metrics self !! "mcc" = Some matthews_correlation →
  length predictions = N →
  Forall (λ row, length row = C) predictions →
  (0 < C)%nat →
  length labels = N →
  ∃ (classes : list Z) (v : R),
    argmax_last_axis predictions = inr classes
    ∧ Forall (λ k, 0 ≤ k < Z.of_nat C)%Z classes
    ∧ _compute_metrics self (predictions, labels) id2label h
      = (h, inr {[ "mcc" := v ]})
    ∧ v = matthews_corrcoef labels classes
    ∧ (-1 <= v <= 1)%R.
Proof.
  intros Hmcc HN Hrows HC Hlab.
  destruct (argmax_last_axis_in_range predictions C HC Hrows)
    as (classes & E & Hlen & Hin).
  exists classes, (matthews_corrcoef labels classes).
  split; [done |]. split; [done |]. split; [| split; [done |]].
  - unfold _compute_metrics.
    rewrite (lift_bind_ok _ _ h classes E).
    rewrite (lift_bind_ok _ _ h matthews_correlation)
      by (unfold dict_getitem; by rewrite Hmcc).
    cbn. rewrite decide_True by congruence. reflexivity.
  - apply matthews_corrcoef_bounds. congruence.
Qed.

(** C3. With the Matthews-correlation metric registered under ["mcc"],
    for scores of shape (N, C), C > 0, and N integer labels, the call
    returns the one-key mapping [{"mcc": v}] where [v] is the Matthews
    correlation coefficient of the labels and the per-row arg-max of the
    scores, and [v] lies in [-1, 1]. For the scores
    [[0.1,0.9],[0.8,0.2],[0.3,0.7]] and labels [1,0,0] the predicted
    classes are [1,0,1] and [v] (one half) differs from 1. *)
Theorem compute_metrics_mcc :
  (∀ (self : TextClassificationBenchmark) (predictions : list (list float))
     (labels : list Z) (id2label : option (list string)) (N C : nat)
     (h : heap),
     _metrics self !! "mcc" = Some matthews_correlation →
     length predictions = N →
     Forall (λ row, length row = C) predictions →
     (0 < C)%nat →
     length labels = N →
     ∃ (classes : list Z) (v : R),
       argmax_last_axis predictions = inr classes
       ∧ Forall (λ k, 0 ≤ k < Z.of_nat C)%Z classes
       ∧ _compute_metrics self (predictions, labels) id2label h
         = (h, inr {[ "mcc" := v ]})
       ∧ v = matthews_corrcoef labels classes
       ∧ (-1 <= v <= 1)%R)
  ∧ (argmax_last_axis [[0.1; 0.9]; [0.8; 0.2]; [0.3; 0.7]]%float
       = inr [1; 0; 1]%Z
     ∧ ∃ v : R,
         _compute_metrics bench
           ([[0.1; 0.9]; [0.8; 0.2]; [0.3; 0.7]]%float, [1; 0; 0]%Z) None ∅
           = (∅, inr {[ "mcc" := v ]})
         ∧ v = (1 / 2)%R ∧ v ≠ 1%R ∧ (-1 <= v <= 1)%R).
Proof.
  split; [exact compute_metrics_with_mcc |].
  assert (argmax_last_axis [[0.1; 0.9]; [0.8; 0.2]; [0.3; 0.7]]%float
          = inr [1; 0; 1]%Z) as Hargmax by (vm_compute; reflexivity).
  split; [exact Hargmax |].
  destruct (compute_metrics_with_mcc bench
              [[0.1; 0.9]; [0.8; 0.2]; [0.3; 0.7]]%float [1; 0; 0]%Z
              None 3 2 ∅)
    as (classes & v & E & _ & Hrun & Hv & Hbound).
  { apply lookup_singleton_eq. }
  { reflexivity. }
  { repeat constructor. }
  { lia. }
  { reflexivity. }
  exists v. split; [exact Hrun |].
  assert (v = (1 / 2)%R) as ->; [| repeat split; lra].
  rewrite Hargmax in E. injection E as <-. subst v.
  unfold matthews_corrcoef.
  replace (cov_ytyp [1; 0; 0]%Z [1; 0; 1]%Z) with 2%Z by (vm_compute; reflexivity).
  replace (cov_ypyp [1; 0; 0]%Z [1; 0; 1]%Z) with 4%Z by (vm_compute; reflexivity).
  replace (cov_ytyt [1; 0; 0]%Z [1; 0; 1]%Z) with 4%Z by (vm_compute; reflexivity).
  rewrite decide_False by lia.
  change (4 * 4)%Z with 16%Z.
  replace (IZR 16) with (4 * 4)%R by lra.
  rewrite sqrt_square by lra. lra.
Qed.

Lemma compute_metrics_mcc_witness :
  ∃ (classes : list Z) (v : R),
    argmax_last_axis [[0.1; 0.9]; [0.8; 0.2]; [0.3; 0.7]]%float = inr classes
    ∧ Forall (λ k, 0 ≤ k < Z.of_nat 2)%Z classes
    ∧ _compute_metrics bench
        ([[0.1; 0.9]; [0.8; 0.2]; [0.3; 0.7]]%float, [1; 0; 0]%Z) None ∅
      = (∅, inr {[ "mcc" := v ]})
    ∧ v = matthews_corrcoef [1; 0; 0]%Z classes
    ∧ (-1 <= v <= 1)%R.
Proof.
  apply (proj1 compute_metrics_mcc bench
           [[0.1; 0.9]; [0.8; 0.2]; [0.3; 0.7]]%float [1; 0; 0]%Z None 3 2 ∅).
  - apply lookup_singleton_eq.
  - reflexivity.
  - repeat constructor.
  - lia.
  - reflexivity.
Defined.

(** C8. The [id2label] argument has no effect: for fixed predictions and
    labels, any two values of it (a list or [None]) give the same result. *)
Theorem compute_metrics_ignores_id2label
    (self : TextClassificationBenchmark)
    (predictions_and_labels : list (list float) * list Z)
    (id2label id2label' : option (list string)) (h : heap) :
  _compute_metrics self predictions_and_labels id2label h
  = _compute_metrics self predictions_and_labels id2label' h.
Proof. destruct predictions_and_labels. reflexivity. Qed.

(** ** Batches of a table *)

Section ranges.
Local Open Scope nat_scope.
Variables (stop step : nat).
Hypothesis step_pos : 0 < step.

Lemma range_from_lt fuel start :
  Forall (λ o, start ≤ o < stop) (range_from fuel start stop step).
Proof.
  revert start. induction fuel as [|fuel IH]; intros start; cbn; [constructor |].
  case_decide; [| constructor].
  constructor; [lia |].
  eapply Forall_impl; [apply IH |]. cbn. intros; lia.
Qed.

Lemma range_lt start : Forall (λ o, o < stop) (range start stop step).
Proof.
  eapply Forall_impl; [apply range_from_lt |]. cbn. intros; lia.
Qed.

Lemma range_nonempty : 0 < stop → range 0 stop step = 0 :: range_from (stop - 1) step stop step.
Proof.
  intros Hpos. unfold range. destruct stop as [|n]; [lia |]. cbn.
  rewrite decide_True by lia. by rewrite Nat.sub_0_r.
Qed.

(** Cutting a column into the batches and joining them gives it back. *)
Lemma join_slices_from {A} (c : list A) fuel start :
  length c = stop → stop ≤ start + fuel →
  mjoin ((λ o, take step (drop o c)) <$> range_from fuel start stop step)
  = drop start c.
Proof.
  intros Hc. revert start. induction fuel as [|fuel IH]; intros start Hfuel; cbn.
  - rewrite drop_ge by lia. done.
  - case_decide.
    + cbn. rewrite IH by lia.
      rewrite <- (take_drop step (drop start c)) at 2.
      by rewrite drop_drop.
    + rewrite drop_ge by lia. done.
Qed.

Lemma join_slices {A} (c : list A) :
  length c = stop →
  mjoin ((λ o, take step (drop o c)) <$> range 0 stop step) = c.
Proof. intros Hc. unfold range. by rewrite join_slices_from by lia. Qed.
End ranges.

Lemma sum_slice_sizes (stop step : nat) fuel start :
  (0 < step)%nat → (stop ≤ start + fuel)%nat →
  sum_list ((λ o, step `min` (stop - o))%nat <$> range_from fuel start stop step)
  = (stop - start)%nat.
Proof.
  intros Hstep. revert start.
  induction fuel as [|fuel IH]; intros start Hfuel; cbn; [lia |].
  case_decide; cbn; [| lia]. rewrite IH by lia. lia.
Qed.

Lemma mapM_cons {F : Type → Type} `{MBind F, MRet F} {A B} (g : A → F B) a l :
  mapM g (a :: l) = (g a ≫= λ y, mapM g l ≫= λ k, mret (y :: k)).
Proof. reflexivity. Qed.

(** Running a list of store computations that each succeed and only
    extend the store. *)
Lemma mapM_M_ok {A B} (g : A → M B) (G : A → B) (P : A → Prop) l (h : heap) :
  (∀ a h0, P a → ∃ h1, g a h0 = (h1, inr (G a)) ∧ h0 ⊆ h1) →
  Forall P l →
  ∃ h', mapM g l h = (h', inr (G <$> l)) ∧ h ⊆ h'.
Proof.
  intros Hg HP. revert h.
  induction HP as [|a l Ha _ IH]; intros h.
  - exists h. done.
  - destruct (Hg a h Ha) as (h1 & E1 & S1).
    destruct (IH h1) as (h2 & E2 & S2).
    exists h2. split; [| by etrans].
    rewrite mapM_cons. rewrite (bind_ok _ _ h h1 (G a) E1).
    rewrite (bind_ok _ _ h1 h2 (G <$> l) E2). reflexivity.
Qed.

(** ** Writing the batches *)

Lemma batch_num_rows_uniform (b : pydict) (n : nat) :
  b ≠ ∅ → map_Forall (λ _ c, length c = n) b → batch_num_rows b = inr n.
Proof.
  intros Hne Hall. unfold batch_num_rows.
  assert (Forall (λ m, m = n) ((length ∘ snd) <$> map_to_list b)) as Hn.
  { apply Forall_fmap, Forall_forall. intros [k c] Hkc. cbn.
    apply elem_of_map_to_list in Hkc. by eapply Hall. }
  destruct (map_to_list b) as [|[k c] l] eqn:El.
  - by apply map_to_list_empty_iff in El.
  - cbn in *. inversion Hn as [|? ? Hc Hrest]; subst.
    rewrite decide_True; [done |].
    eapply Forall_impl; [exact Hrest |]. cbn. intros; congruence.
Qed.

Lemma mapM_batch_num_rows (F : nat → pydict) (sz : nat → nat) (offs : list nat) :
  Forall (λ o, F o ≠ ∅ ∧ map_Forall (λ _ c, length c = sz o) (F o)) offs →
  mapM batch_num_rows (F <$> offs) = inr (sz <$> offs).
Proof.
  induction 1 as [|o offs [Hne Hall] _ IH]; [done |].
  rewrite !fmap_cons, mapM_cons.
  rewrite (batch_num_rows_uniform _ _ Hne Hall). cbn.
  fold (mapM batch_num_rows). rewrite IH. reflexivity.
Qed.

Lemma write_batches_ok (F : nat → pydict) (sz : nat → nat) (offs : list nat)
    (D : gset string) :
  offs ≠ [] → D ≠ ∅ →
  Forall (λ o, dom (F o) = D ∧ map_Forall (λ _ c, length c = sz o) (F o)) offs →
  ∃ T : pydict,
    write_batches (F <$> offs)
      = inr {| data := T; num_rows := sum_list (sz <$> offs) |}
    ∧ dom T = D
    ∧ ∀ k, k ∈ D →
        T !! k = Some (mjoin ((λ o, default [] (F o !! k)) <$> offs)).
Proof.
  intros Hoffs HD Hall.
  destruct offs as [|o0 offs]; [done |].
  assert (dom (F o0) = D) as HD0 by (by inversion Hall as [|? ? [? ?] ?]).
  eexists. split; [| split].
  - unfold write_batches. rewrite fmap_cons.
    rewrite <- (fmap_cons F o0 offs).
    rewrite (mapM_batch_num_rows F sz).
    2: { eapply Forall_impl; [exact Hall |]. cbn. intros o [Hd Hl].
         split; [| done]. intros Hem. apply HD. rewrite <- Hd, Hem.
         apply dom_empty_L. }
    cbn. rewrite decide_True; [reflexivity |].
    constructor; [done |]. apply Forall_fmap.
    inversion Hall as [|? ? _ Hrest]; subst.
    eapply Forall_impl; [exact Hrest |]. cbn. intros o [Hd _]. congruence.
  - apply set_eq. intros k. rewrite <- HD0, !elem_of_dom, map_lookup_imap.
    destruct (F o0 !! k); cbn; split; intros [? ?]; eauto; done.
  - intros k Hk. rewrite map_lookup_imap.
    rewrite <- HD0 in Hk. apply elem_of_dom in Hk as [c Hc].
    rewrite Hc. cbn. rewrite Hc, <- list_fmap_compose. reflexivity.
Qed.

(** ** [Dataset.map] *)

Lemma batch_size_pos : (0 < batch_size)%nat.
Proof. unfold batch_size. lia. Qed.

#[local] Opaque batch_size.

Lemma slice_length (c : list cell) (n start : nat) :
  length c = n → length (slice start batch_size c) = (batch_size `min` (n - start))%nat.
Proof. intros <-. unfold slice. by rewrite length_take, length_drop. Qed.

(** When the mapped function turns the batch at each offset into the
    dictionary [F offset], all with the columns [D] and as many rows as the
    batch, the result is a table of the same number of rows with the
    columns [D]; a column whose batches are the slices of one list is that
    list. The store is only extended. *)
Lemma Dataset_map_ok (function : ref → M ref) (ds : Dataset) (n : nat)
    (F : nat → pydict) (D : gset string) (h : heap) :
  num_rows ds = n → (0 < n)%nat → D ≠ ∅ →
  (∀ start h0, (start < n)%nat →
     ∃ h1, apply_function_on_batch function ds start h0 = (h1, inr (F start))
           ∧ h0 ⊆ h1) →
  (∀ start, (start < n)%nat →
     dom (F start) = D
     ∧ map_Forall (λ _ c, length c = (batch_size `min` (n - start))%nat) (F start)) →
  ∃ (h' : heap) (T : pydict),
    Dataset_map function ds h = (h', inr {| data := T; num_rows := n |})
    ∧ h ⊆ h'
    ∧ dom T = D
    ∧ (∀ k c, T !! k = Some c → length c = n)
    ∧ (∀ k c, length c = n →
         (∀ start, (start < n)%nat →
            F start !! k = Some (slice start batch_size c)) →
         T !! k = Some c)
    ∧ (∀ k (G : nat → list cell),
         (∀ start, (start < n)%nat → F start !! k = Some (G start)) →
         T !! k = Some (mjoin (G <$> range 0 n batch_size))).
Proof.
  intros Hn Hpos HD Hrun HF.
  pose proof (range_lt n batch_size batch_size_pos 0) as Hlt.
  destruct (mapM_M_ok (apply_function_on_batch function ds) F
              (λ o, (o < n)%nat) (range 0 n batch_size) h Hrun Hlt)
    as (h' & Emap & Hsub).
  destruct (write_batches_ok F (λ o, (batch_size `min` (n - o))%nat)
              (range 0 n batch_size) D) as (T & Ew & HdomT & HT).
  { rewrite (range_nonempty n batch_size batch_size_pos Hpos). done. }
  { done. }
  { eapply Forall_impl; [exact Hlt |]. cbn. intros o Ho. by apply HF. }
  assert (sum_list ((λ o, (batch_size `min` (n - o))%nat) <$> range 0 n batch_size)
          = n) as Hsum.
  { unfold range. rewrite sum_slice_sizes; [lia | apply batch_size_pos | lia]. }
  rewrite Hsum in Ew.
  exists h', T. split; [| split; [done | split; [done | split; [| split]]]].
  - unfold Dataset_map. rewrite Hn, decide_False by lia.
    rewrite (bind_ok _ _ h h' _ Emap). unfold lift. by rewrite Ew.
  - intros k c Hk.
    assert (k ∈ D) as HkD by (rewrite <- HdomT; apply elem_of_dom; eauto).
    rewrite (HT k HkD) in Hk. injection Hk as <-.
    rewrite length_join, <- list_fmap_compose.
    etrans; [| exact Hsum]. f_equal. apply Forall_fmap_ext_1.
    eapply Forall_impl; [exact Hlt |]. cbn. intros o Ho.
    destruct (HF o Ho) as [Hd Hl].
    rewrite <- Hd in HkD. apply elem_of_dom in HkD as [c' Hc'].
    rewrite Hc'. cbn. by eapply Hl.
  - intros k c Hc Hslices.
    assert (k ∈ D) as HkD.
    { destruct (HF 0%nat Hpos) as [Hd _]. rewrite <- Hd.
      apply elem_of_dom. rewrite (Hslices 0%nat Hpos). eauto. }
    rewrite (HT k HkD). f_equal.
    etrans; [| exact (join_slices n batch_size batch_size_pos c Hc)].
    f_equal. apply Forall_fmap_ext_1.
    eapply Forall_impl; [exact Hlt |]. cbn. intros o Ho.
    by rewrite (Hslices o Ho).
  - intros k G HG.
    assert (k ∈ D) as HkD.
    { destruct (HF 0%nat Hpos) as [Hd _]. rewrite <- Hd.
      apply elem_of_dom. rewrite (HG 0%nat Hpos). eauto. }
    rewrite (HT k HkD). do 2 f_equal. apply Forall_fmap_ext_1.
    eapply Forall_impl; [exact Hlt |]. cbn. intros o Ho.
    by rewrite (HG o Ho).
Qed.

(** ** The two mapped functions, on one batch *)

Lemma fresh_None (h : heap) : h !! fresh (dom h) = None.
Proof. apply not_elem_of_dom, is_fresh. Qed.

Lemma deref_insert_eq (h : heap) r d : deref (<[r := d]> h) r = d.
Proof. unfold deref. by rewrite lookup_insert_eq. Qed.

Lemma deref_insert_ne (h : heap) r r' d :
  r ≠ r' → deref (<[r := d]> h) r' = deref h r'.
Proof. intros Hne. unfold deref. by rewrite lookup_insert_ne. Qed.

Lemma apply_tokenise (t : PreTrainedTokenizerBase) (ds : Dataset)
    (start : nat) (h0 : heap) (texts : list cell) (enc : pydict) :
  data ds !! "text" = Some texts →
  tok_call t (slice start batch_size texts) true (PadBool true) = inr enc →
  ∃ h1,
    apply_function_on_batch (tokenise (OTokenizer t)) ds start h0
      = (h1, inr (enc ∪ (slice start batch_size <$> data ds)))
    ∧ h0 ⊆ h1.
Proof.
  intros Htext Henc.
  set (batch := slice start batch_size <$> data ds).
  set (r := fresh (dom h0)).
  set (h1 := <[r := batch]> h0).
  set (r2 := fresh (dom h1)).
  assert (r ≠ r2) as Hne.
  { intros Heq. pose proof (fresh_None h1) as Hf. fold r2 in Hf.
    rewrite <- Heq in Hf. unfold h1 in Hf. by rewrite lookup_insert_eq in Hf. }
  exists (<[r2 := enc]> h1). split.
  - unfold apply_function_on_batch. fold batch.
    rewrite (bind_ok _ _ h0 h1 r) by reflexivity.
    assert (tokenise (OTokenizer t) r h1 = (<[r2 := enc]> h1, inr r2)) as Etok.
    { unfold tokenise.
      rewrite (bind_ok _ _ h1 h1 (slice start batch_size texts)).
      2: { eapply getitem_ok; [apply lookup_insert_eq |].
           unfold batch. by rewrite lookup_fmap, Htext. }
      rewrite (lift_bind_ok _ _ h1 enc) by exact Henc.
      reflexivity. }
    rewrite (bind_ok _ _ h1 (<[r2 := enc]> h1) r2 Etok).
    unfold load. unfold mbind, M_bind, mret, M_ret.
    rewrite deref_insert_eq, deref_insert_ne by done.
    unfold h1. by rewrite deref_insert_eq.
  - etrans; [apply (insert_subseteq h0 r batch), fresh_None |].
    apply insert_subseteq, fresh_None.
Qed.

Lemma slice_fmap {A B} (f : A → B) (l : list A) start n :
  f <$> take n (drop start l) = take n (drop start (f <$> l)).
Proof. by rewrite fmap_take, fmap_drop. Qed.

Lemma mapM_label2id_slice (label2id : gmap string Z) (labels : list string)
    (ids : list Z) start n :
  Forall2 (λ s i, label2id !! s = Some i) labels ids →
  mapM (label2id_getitem label2id) (CStr <$> take n (drop start labels))
  = inr (take n (drop start ids)).
Proof.
  intros HF.
  assert (Forall2 (λ s i, label2id !! s = Some i)
            (take n (drop start labels)) (take n (drop start ids))) as HF'.
  { by apply Forall2_take, Forall2_drop. }
  clear HF. induction HF' as [|s i ls' ids' Hs _ IH]; [done |].
  rewrite fmap_cons, mapM_cons. cbn. rewrite Hs. cbn.
  fold (mapM (label2id_getitem label2id)). by rewrite IH.
Qed.

Lemma apply_numericalise (self : TextClassificationBenchmark)
    (label2id : gmap string Z) (ds : Dataset) (start : nat) (h0 : heap)
    (labels : list string) (ids : list Z) :
  data ds !! "label" = Some (CStr <$> labels) →
  Forall2 (λ s i, label2id !! s = Some i) labels ids →
  ∃ h1,
    apply_function_on_batch
      (λ examples, _create_numerical_labels self examples label2id) ds start h0
      = (h1, inr (<["label" := slice start batch_size (CInt <$> ids)]>
                    (slice start batch_size <$> data ds)))
    ∧ h0 ⊆ h1.
Proof.
  intros Hlab HF.
  set (batch := slice start batch_size <$> data ds).
  set (r := fresh (dom h0)).
  set (h1 := <[r := batch]> h0).
  set (new := <["label" := slice start batch_size (CInt <$> ids)]> batch).
  exists (<[r := new]> h1). split.
  - unfold apply_function_on_batch. fold batch.
    rewrite (bind_ok _ _ h0 h1 r) by reflexivity.
    assert (_create_numerical_labels self r label2id h1
            = (<[r := new]> h1, inr r)) as Enum.
    { unfold _create_numerical_labels, try_except_KeyError.
      unfold mbind at 1, M_bind.
      rewrite (bind_ok _ _ h1 h1 (CStr <$> take batch_size (drop start labels))).
      2: { eapply getitem_ok; [apply lookup_insert_eq |].
           unfold batch. rewrite lookup_fmap, Hlab. cbn. unfold slice.
           by rewrite slice_fmap. }
      rewrite (lift_bind_ok _ _ h1 (take batch_size (drop start ids)))
        by by apply mapM_label2id_slice.
      unfold setitem.
      replace (deref h1 r) with batch by (unfold h1; by rewrite deref_insert_eq).
      unfold new, slice. by rewrite slice_fmap. }
    rewrite (bind_ok _ _ h1 (<[r := new]> h1) r Enum).
    unfold load. unfold mbind, M_bind, mret, M_ret.
    rewrite deref_insert_eq. by rewrite (idemp_L (∪) new).
  - unfold h1. rewrite insert_insert_eq. apply insert_subseteq, fresh_None.
Qed.

Lemma slice_columns_length (T : pydict) (n start : nat) :
  map_Forall (λ _ c, length c = n) T →
  map_Forall (λ _ c, length c = (batch_size `min` (n - start))%nat)
    (slice start batch_size <$> T).
Proof.
  intros HT k c. rewrite lookup_fmap.
  destruct (T !! k) as [c'|] eqn:Hk; [| done]. cbn. intros [= <-].
  apply slice_length. by eapply HT.
Qed.

(** The tokenised table: the columns of the dataset and of the tokenizer,
    all as long as the dataset, the label column as it was. *)
Lemma Dataset_map_tokenise (t : PreTrainedTokenizerBase) (fields : gset string)
    (ds : Dataset) (n : nat) (texts : list string) (h : heap) :
  tokenizes t fields →
  num_rows ds = n → (0 < n)%nat →
  map_Forall (λ _ c, length c = n) (data ds) →
  data ds !! "text" = Some (CStr <$> texts) →
  ∃ (h' : heap) (T : pydict),
    Dataset_map (tokenise (OTokenizer t)) ds h
      = (h', inr {| data := T; num_rows := n |})
    ∧ h ⊆ h'
    ∧ dom T = fields ∪ dom (data ds)
    ∧ map_Forall (λ _ c, length c = n) T
    ∧ (∀ k c, k ∉ fields → data ds !! k = Some c → T !! k = Some c)
    ∧ (∀ k, k ∈ fields →
         T !! k = Some (tokenised_column t (CStr <$> texts) k n)).
Proof.
  intros (Hids & Hmask & Hlab & Htok) Hn Hpos Hlen Htext.
  assert (length texts = n) as Htexts.
  { rewrite <- (Hlen _ _ Htext). by rewrite length_fmap. }
  set (enc_of := λ start : nat,
         match tok_call t (slice start batch_size (CStr <$> texts)) true
                 (PadBool true) with
         | inr enc => enc
         | inl _ => ∅
         end).
  assert (∀ start, (start < n)%nat →
            tok_call t (slice start batch_size (CStr <$> texts)) true
              (PadBool true) = inr (enc_of start)
            ∧ dom (enc_of start) = fields
            ∧ map_Forall (λ _ c, length c = (batch_size `min` (n - start))%nat)
                (enc_of start)) as Henc.
  { intros start Hstart.
    destruct (Htok (take batch_size (drop start texts))) as (enc & E & Hd & Hl).
    { intros Hnil. apply (f_equal length) in Hnil.
      rewrite length_take, length_drop in Hnil. cbn in Hnil.
      pose proof batch_size_pos. lia. }
    rewrite slice_fmap in E. unfold enc_of, slice. rewrite E.
    split; [done |]. split; [done |].
    intros k c Hk. rewrite (Hl k c Hk), length_take, length_drop. lia. }
  destruct (Dataset_map_ok (tokenise (OTokenizer t)) ds n
              (λ start, enc_of start ∪ (slice start batch_size <$> data ds))
              (fields ∪ dom (data ds)) h Hn Hpos)
    as (h' & T & Erun & Hsub & HdomT & HlenT & Hcols & Hjoin).
  { intros Hem. assert ("input_ids" ∈ fields ∪ dom (data ds)) as Hin
      by (apply elem_of_union; by left).
    rewrite Hem in Hin. by apply not_elem_of_empty in Hin. }
  { intros start h0 Hstart. destruct (Henc start Hstart) as (E & _ & _).
    by eapply apply_tokenise. }
  { intros start Hstart. destruct (Henc start Hstart) as (_ & Hd & Hl).
    split.
    - by rewrite dom_union_L, dom_fmap_L, Hd.
    - intros k c. rewrite lookup_union_Some_raw. intros [Hk | [_ Hk]].
      + by eapply Hl.
      + by eapply (slice_columns_length (data ds) n start Hlen). }
  exists h', T. split; [done |]. split; [done |]. split; [done |].
  split; [exact HlenT |]. split.
  - intros k c Hk Hc. apply Hcols; [by eapply Hlen |].
    intros start Hstart. destruct (Henc start Hstart) as (_ & Hd & _).
    rewrite lookup_union_r.
    + by rewrite lookup_fmap, Hc.
    + apply not_elem_of_dom. by rewrite Hd.
  - intros k Hk. unfold tokenised_column. apply Hjoin.
    intros start Hstart. destruct (Henc start Hstart) as (E & Hd & _).
    rewrite E. rewrite <- Hd in Hk. apply elem_of_dom in Hk as [c Hc].
    rewrite Hc. cbn. by apply lookup_union_Some_l.
Qed.

(** The numericalised table: the label column replaced, every other
    column as it was. *)
Lemma Dataset_map_numericalise (self : TextClassificationBenchmark)
    (label2id : gmap string Z) (ds : Dataset) (n : nat)
    (labels : list string) (ids : list Z) (h : heap) :
  num_rows ds = n → (0 < n)%nat →
  map_Forall (λ _ c, length c = n) (data ds) →
  data ds !! "label" = Some (CStr <$> labels) →
  Forall2 (λ s i, label2id !! s = Some i) labels ids →
  ∃ (h' : heap) (T : pydict),
    Dataset_map (λ examples, _create_numerical_labels self examples label2id)
      ds h = (h', inr {| data := T; num_rows := n |})
    ∧ h ⊆ h'
    ∧ dom T = dom (data ds)
    ∧ T !! "label" = Some (CInt <$> ids)
    ∧ ∀ k c, k ≠ "label" → data ds !! k = Some c → T !! k = Some c.
Proof.
  intros Hn Hpos Hlen Hlab HF.
  assert (length ids = n) as Hids.
  { rewrite <- (Forall2_length _ _ _ HF), <- (Hlen _ _ Hlab).
    by rewrite length_fmap. }
  assert ("label" ∈ dom (data ds)) as Hdom by (apply elem_of_dom; eauto).
  destruct (Dataset_map_ok
              (λ examples, _create_numerical_labels self examples label2id)
              ds n
              (λ start, <["label" := slice start batch_size (CInt <$> ids)]>
                          (slice start batch_size <$> data ds))
              (dom (data ds)) h Hn Hpos)
    as (h' & T & Erun & Hsub & HdomT & HlenT & Hcols & _).
  { intros Hem. rewrite Hem in Hdom. by apply not_elem_of_empty in Hdom. }
  { intros start h0 Hstart. by eapply apply_numericalise. }
  { intros start Hstart. split.
    - rewrite dom_insert_L, dom_fmap_L. apply set_eq. intros k.
      rewrite elem_of_union, elem_of_singleton.
      split; [intros [-> | ?]; done | by right].
    - intros k c. rewrite lookup_insert_Some. intros [[_ <-] | [_ Hk]].
      + apply slice_length. by rewrite length_fmap.
      + by eapply (slice_columns_length (data ds) n start Hlen). }
  exists h', T. split; [done |]. split; [done |]. split; [done |]. split.
  - apply Hcols; [by rewrite length_fmap |].
    intros start _. apply lookup_insert_eq.
  - intros k c Hk Hc. apply Hcols; [by eapply Hlen |].
    intros start _. rewrite lookup_insert_ne by done.
    by rewrite lookup_fmap, Hc.
Qed.

Lemma remove_text_column (T : pydict) (n : nat) :
  "text" ∈ dom T →
  remove_columns ["text"] {| data := T; num_rows := n |}
  = inr {| data := delete "text" T; num_rows := n |}.
Proof.
  intros Hin. unfold remove_columns. cbn.
  rewrite decide_True; [done |]. by constructor.
Qed.

Lemma preprocess_data_pytorch_general
    (self : TextClassificationBenchmark) (dataset : Dataset)
    (kwargs : gmap string pyobj) (t : PreTrainedTokenizerBase)
    (config : Config) (fields : gset string) (texts labels : list string)
    (n : nat) (h : heap) :
  kwargs !! "tokenizer" = Some (OTokenizer t) →
  kwargs !! "config" = Some (OConfig config) →
  tokenizes t fields →
  num_rows dataset = n →
  map_Forall (λ _ c, length c = n) (data dataset) →
  data dataset !! "text" = Some (CStr <$> texts) →
  data dataset !! "label" = Some (CStr <$> labels) →
  Forall (λ s, is_Some (label2id config !! s)) labels →
  ∃ (h' : heap) (out : Dataset) (ids : list Z),
    _preprocess_data self dataset "pytorch" kwargs h = (h', inr (Some out))
    ∧ data out !! "text" = None
    ∧ data out !! "label" = Some (CInt <$> ids)
    ∧ Forall2 (λ s i, label2id config !! s = Some i) labels ids
    ∧ num_rows out = n
    ∧ ((0 < n)%nat →
       ∀ k, k = "input_ids" ∨ k = "attention_mask" →
         data out !! k = Some (tokenised_column t (CStr <$> texts) k n)
         ∧ length (tokenised_column t (CStr <$> texts) k n) = n).
Proof.
  intros Htok Hcfg Htokenizes Hn Hlen Htext Hlab Hall.
  destruct (mapM_label2id_present (label2id config) labels Hall)
    as (ids & _ & HF).
  assert ("text" ∈ dom (data dataset)) as Htextdom
    by (apply elem_of_dom; eauto).
  unfold _preprocess_data. rewrite decide_True by done.
  rewrite (lift_bind_ok _ _ h (OTokenizer t))
    by (unfold dict_getitem; by rewrite Htok).
  destruct (decide (n = 0)%nat) as [Hz | Hnz].
  - (* an empty dataset is returned as it is by both maps *)
    assert (labels = []) as ->.
    { apply nil_length_inv.
      rewrite <- (length_fmap CStr), (Hlen _ _ Hlab). by subst. }
    inversion HF; subst.
    exists h, {| data := delete "text" (data dataset); num_rows := 0 |}, [].
    split; [| split; [apply lookup_delete_eq | split;
      [cbn; rewrite lookup_delete_ne by done; exact Hlab
      | split; [constructor | split; [done | lia]]]]].
    assert (∀ f, Dataset_map f dataset h = (h, inr dataset)) as Emap.
    { intros f. unfold Dataset_map. by rewrite decide_True. }
    rewrite (bind_ok _ _ h h dataset (Emap _)).
    rewrite (lift_bind_ok _ _ h (OConfig config))
      by (unfold dict_getitem; by rewrite Hcfg).
    rewrite (lift_bind_ok _ _ h (label2id config)) by reflexivity.
    cbv zeta. rewrite (bind_ok _ _ h h dataset (Emap _)).
    destruct dataset as [T m]. cbn in *. subst m.
    rewrite (lift_bind_ok _ _ h _ (remove_text_column T 0 Htextdom)).
    reflexivity.
  - assert (0 < n)%nat as Hpos by lia.
    destruct Htokenizes as (Hids & Hmask & Hnolab & Hcall).
    destruct (Dataset_map_tokenise t fields dataset n texts h)
      as (h1 & T1 & E1 & S1 & Hdom1 & Hlen1 & Hkeep1 & Htok1);
      [done .. |].
    destruct (Dataset_map_numericalise self (label2id config)
                {| data := T1; num_rows := n |} n labels ids h1)
      as (h2 & T2 & E2 & S2 & Hdom2 & Hlab2 & Hkeep2);
      [done | done | done | by apply Hkeep1 | done |].
    cbn in Hdom2.
    assert ("text" ∈ dom T2) as Htext2.
    { rewrite Hdom2, Hdom1. apply elem_of_union. by right. }
    assert (∀ k, k ∈ fields →
              T2 !! k = Some (tokenised_column t (CStr <$> texts) k n)
              ∧ length (tokenised_column t (CStr <$> texts) k n) = n)
      as Hfield.
    { intros k Hk. pose proof (Htok1 k Hk) as Hc. split.
      - apply Hkeep2; [| done]. intros ->. done.
      - by eapply Hlen1. }
    exists h2, {| data := delete "text" T2; num_rows := n |}, ids.
    split; [| split; [apply lookup_delete_eq | split;
      [cbn; rewrite lookup_delete_ne by done; exact Hlab2
      | split; [done | split; [done |]]]]].
    + rewrite (bind_ok _ _ h h1 _ E1).
      rewrite (lift_bind_ok _ _ h1 (OConfig config))
        by (unfold dict_getitem; by rewrite Hcfg).
      rewrite (lift_bind_ok _ _ h1 (label2id config)) by reflexivity.
      cbv zeta. rewrite (bind_ok _ _ h1 h2 _ E2).
      rewrite (lift_bind_ok _ _ h2 _ (remove_text_column T2 n Htext2)).
      reflexivity.
    + intros _ k [-> | ->]; cbn; rewrite lookup_delete_ne by done;
        by apply Hfield.
Qed.

(** ** Effects on the store *)

Lemma extends_bind {A B} (m : M A) (f : A → M B) :
  extends_store m → (∀ a, extends_store (f a)) → extends_store (m ≫= f).
Proof.
  intros Hm Hf h. unfold mbind, M_bind. specialize (Hm h).
  destruct (m h) as [h1 [e | a]]; [done |].
  etrans; [exact Hm | apply Hf].
Qed.

Lemma extends_lift {A} (r : result A) : extends_store (lift r).
Proof. intros h. done. Qed.

Lemma extends_ret {A} (a : A) : extends_store (mret a : M A).
Proof. intros h. done. Qed.

Lemma independent_bind {A B} (m : M A) (f : A → M B) :
  store_independent m → (∀ a, store_independent (f a)) →
  store_independent (m ≫= f).
Proof.
  intros [[e | a] Hr] Hf.
  - exists (inl e). intros h. unfold mbind, M_bind. specialize (Hr h).
    destruct (m h) as [h1 r]. cbn in Hr. by subst.
  - destruct (Hf a) as [r' Hr']. exists r'. intros h.
    unfold mbind, M_bind. specialize (Hr h).
    destruct (m h) as [h1 r]. cbn in Hr. subst. apply Hr'.
Qed.

Lemma independent_lift {A} (r : result A) : store_independent (lift r).
Proof. by exists r. Qed.

Lemma extends_raise {A} (e : exn) : extends_store (raise e : M A).
Proof. intros h. done. Qed.

Lemma independent_raise {A} (e : exn) : store_independent (raise e : M A).
Proof. by exists (inl e). Qed.

Lemma independent_ret {A} (a : A) : store_independent (mret a : M A).
Proof. by exists (inr a). Qed.

Lemma extends_mapM {A B} (g : A → M B) (l : list A) :
  (∀ a, extends_store (g a)) → extends_store (mapM g l).
Proof.
  intros Hg. induction l as [|a l IH]; [apply extends_ret |].
  rewrite mapM_cons. apply extends_bind; [done |]. intros y.
  apply extends_bind; [done |]. intros k. apply extends_ret.
Qed.

Lemma independent_mapM {A B} (g : A → M B) (l : list A) :
  (∀ a, store_independent (g a)) → store_independent (mapM g l).
Proof.
  intros Hg. induction l as [|a l IH]; [apply independent_ret |].
  rewrite mapM_cons. apply independent_bind; [done |]. intros y.
  apply independent_bind; [done |]. intros k. apply independent_ret.
Qed.

Lemma apply_function_on_batch_effect function ds start :
  batch_local function →
  extends_store (apply_function_on_batch function ds start)
  ∧ store_independent (apply_function_on_batch function ds start).
Proof.
  intros Hloc.
  destruct (Hloc (slice start batch_size <$> data ds)) as [merged Hm].
  assert (∀ h, h ⊆ (apply_function_on_batch function ds start h).1
               ∧ (apply_function_on_batch function ds start h).2 = merged)
    as Hboth.
  { intros h. unfold apply_function_on_batch.
    set (batch := slice start batch_size <$> data ds) in *.
    set (r := fresh (dom h)).
    rewrite (bind_ok _ _ h (<[r := batch]> h) r) by reflexivity.
    destruct (Hm (<[r := batch]> h) r (lookup_insert_eq _ _ _)) as [Hsub Hres].
    rewrite delete_insert_eq, delete_id in Hsub by apply fresh_None.
    unfold mbind, M_bind.
    destruct (function r (<[r := batch]> h)) as [h2 [e | r']]; cbn in *.
    - done.
    - done. }
  split.
  - intros h. apply Hboth.
  - exists merged. intros h. apply Hboth.
Qed.

Lemma Dataset_map_effect function ds :
  batch_local function →
  extends_store (Dataset_map function ds)
  ∧ store_independent (Dataset_map function ds).
Proof.
  intros Hloc. unfold Dataset_map. case_decide.
  - split; [apply extends_ret | apply independent_ret].
  - split.
    + apply extends_bind; [| intros; apply extends_lift].
      apply extends_mapM. intros start.
      by apply apply_function_on_batch_effect.
    + apply independent_bind; [| intros; apply independent_lift].
      apply independent_mapM. intros start.
      by apply apply_function_on_batch_effect.
Qed.

(** [_create_numerical_labels], case by case. *)
Lemma create_numerical_labels_run (self : TextClassificationBenchmark)
    (examples : ref) (label2id : gmap string Z) (h : heap) :
  _create_numerical_labels self examples label2id h
  = match deref h examples !! "label" with
    | None => (h, inl (KeyError (CStr "label")))
    | Some labels =>
        match mapM (label2id_getitem label2id) labels with
        | inr ids =>
            (<[examples := <["label" := CInt <$> ids]> (deref h examples)]> h,
             inr examples)
        | inl (KeyError _) =>
            (h, inl (InvalidBenchmark
                       [Lit "One of the labels in the dataset, ";
                        ReprColumn labels;
                        Lit ", does not occur ";
                        Lit "in the label2id dictionary ";
                        ReprDict label2id;
                        Lit "."]))
        | inl e => (h, inl e)
        end
    end.
Proof.
  unfold _create_numerical_labels, try_except_KeyError, getitem, setitem,
    lift, raise, mbind, M_bind, mret, M_ret.
  destruct (deref h examples !! "label") as [labels|] eqn:El.
  - destruct (mapM (label2id_getitem label2id) labels) as [[]|ids];
      rewrite ?El; reflexivity.
  - rewrite El. reflexivity.
Qed.

Lemma tokenise_batch_local (tokenizer : pyobj) :
  batch_local (tokenise tokenizer).
Proof.
  intros batch.
  exists (match batch !! "text" with
          | None => inl (KeyError (CStr "text"))
          | Some doc =>
              match call tokenizer doc true (PadBool true) with
              | inl e => inl e
              | inr enc => inr (enc ∪ batch)
              end
          end).
  intros h r Hr. cbv zeta.
  assert (deref h r = batch) as Hd by (unfold deref; by rewrite Hr).
  unfold tokenise, getitem, lift, alloc, mbind, M_bind. rewrite Hd.
  destruct (batch !! "text") as [doc|]; cbn.
  - destruct (call tokenizer doc true (PadBool true)) as [e | enc]; cbn.
    + split; [apply delete_subseteq | done].
    + assert (fresh (dom h) ≠ r) as Hne.
      { intros Heq. pose proof (fresh_None h) as Hf. congruence. }
      split.
      * etrans; [apply delete_subseteq |]. apply insert_subseteq, fresh_None.
      * by rewrite deref_insert_eq, deref_insert_ne, Hd.
  - split; [apply delete_subseteq | done].
Qed.

Lemma numericalise_batch_local (self : TextClassificationBenchmark)
    (label2id : gmap string Z) :
  batch_local (λ examples, _create_numerical_labels self examples label2id).
Proof.
  intros batch.
  exists (match batch !! "label" with
          | None => inl (KeyError (CStr "label"))
          | Some labels =>
              match mapM (label2id_getitem label2id) labels with
              | inr ids => inr (<["label" := CInt <$> ids]> batch)
              | inl (KeyError _) =>
                  inl (InvalidBenchmark
                         [Lit "One of the labels in the dataset, ";
                          ReprColumn labels;
                          Lit ", does not occur ";
                          Lit "in the label2id dictionary ";
                          ReprDict label2id;
                          Lit "."])
              | inl e => inl e
              end
          end).
  intros h r Hr. cbv zeta.
  assert (deref h r = batch) as Hd by (unfold deref; by rewrite Hr).
  rewrite create_numerical_labels_run, Hd.
  destruct (batch !! "label") as [labels|]; cbn.
  - destruct (mapM (label2id_getitem label2id) labels) as [[]|ids]; cbn;
      try (split; [apply delete_subseteq | done]).
    split.
    + apply map_subseteq_spec. intros r0 d.
      rewrite lookup_delete_Some. intros [Hne Hr0].
      by rewrite lookup_insert_ne.
    + by rewrite deref_insert_eq, (idemp_L (∪)).
  - split; [apply delete_subseteq | done].
Qed.

Lemma preprocess_data_effect (self : TextClassificationBenchmark)
    (dataset : Dataset) (framework : string) (kwargs : gmap string pyobj) :
  extends_store (_preprocess_data self dataset framework kwargs)
  ∧ store_independent (_preprocess_data self dataset framework kwargs).
Proof.
  unfold _preprocess_data. repeat case_decide.
  - split.
    + apply extends_bind; [apply extends_lift |]. intros tokenizer.
      apply extends_bind;
        [apply Dataset_map_effect, tokenise_batch_local |]. intros tokenised.
      apply extends_bind; [apply extends_lift |]. intros config.
      apply extends_bind; [apply extends_lift |]. intros label2id.
      apply extends_bind;
        [apply Dataset_map_effect, numericalise_batch_local |].
      intros preprocessed.
      apply extends_bind; [apply extends_lift |]. intros removed.
      apply extends_ret.
    + apply independent_bind; [apply independent_lift |]. intros tokenizer.
      apply independent_bind;
        [apply Dataset_map_effect, tokenise_batch_local |]. intros tokenised.
      apply independent_bind; [apply independent_lift |]. intros config.
      apply independent_bind; [apply independent_lift |]. intros label2id.
      apply independent_bind;
        [apply Dataset_map_effect, numericalise_batch_local |].
      intros preprocessed.
      apply independent_bind; [apply independent_lift |]. intros removed.
      apply independent_ret.
  - split; [apply extends_raise | apply independent_raise].
  - split; [apply extends_ret | apply independent_ret].
Qed.

Lemma char_tokenizer_tokenizes :
  tokenizes char_tokenizer {[ "input_ids"; "attention_mask" ]}.
Proof.
  split; [| split; [| split]].
  - apply elem_of_union. left. by apply elem_of_singleton.
  - apply elem_of_union. right. by apply elem_of_singleton.
  - rewrite elem_of_union, !elem_of_singleton. intros [? | ?]; done.
  - intros docs _.
    assert (mapM (λ d, match d with
                       | CStr s => inr (char_ids s)
                       | _ => inl ValueError
                       end) (CStr <$> docs)
            = (inr (char_ids <$> docs) : result (list (list Z)))) as Eids.
    { induction docs as [|s docs IH]; [done |].
      rewrite !fmap_cons, mapM_cons. cbn.
      match goal with |- context [mapM ?g (CStr <$> docs)] =>
        change (mapM g (CStr <$> docs)) with
          (mapM (λ d, match d with
                      | CStr s => inr (char_ids s)
                      | _ => inl ValueError
                      end : result (list Z)) (CStr <$> docs)) end.
      by rewrite IH. }
    eexists. split; [| split].
    + cbn. unfold char_tokenizer_call. rewrite Eids. reflexivity.
    + rewrite dom_insert_L, dom_singleton_L. done.
    + intros k c. rewrite lookup_insert_Some, lookup_singleton_Some.
      intros [[_ <-] | [_ [_ <-]]]; by rewrite !length_fmap.
Qed.

Lemma two_rows_columns :
  map_Forall (λ _ c, length c = 2%nat) two_rows.
Proof.
  intros k c. unfold two_rows.
  rewrite lookup_insert_Some, lookup_singleton_Some.
  by intros [[_ <-] | [_ [_ <-]]].
Qed.

Lemma one_row_columns :
  map_Forall (λ _ c, length c = 1%nat) (data one_row).
Proof.
  intros k c. cbn.
  rewrite lookup_insert_Some, lookup_singleton_Some.
  by intros [[_ <-] | [_ [_ <-]]].
Qed.

(** C4. With framework ["pytorch"], a tokenizer and a configuration in
    the keyword arguments, and a dataset with a text and a label column
    whose labels are all keys of [label2id], preprocessing returns a
    dataset without the text column, whose label column holds, row by row,
    the integer [label2id] gives for the original label, and whose
    token-id and attention-mask columns (when it has a row) are the ones
    the tokenizer produced for the texts, batch after batch, one entry per
    row. On [{"text": ["a"], "label": ["pos"]}] with
    [label2id = {"pos": 1, "neg": 0}] the output has no text column, its
    label column is [[1]], and its token-id and attention-mask columns are
    those of the tokenizer's encoding of [["a"]]. *)
Theorem preprocess_data_pytorch :
  (∀ (self : TextClassificationBenchmark) (dataset : Dataset)
     (kwargs : gmap string pyobj) (t : PreTrainedTokenizerBase)
     (config : Config) (fields : gset string) (texts labels : list string)
     (n : nat) (h : heap),
     kwargs !! "tokenizer" = Some (OTokenizer t) →
     kwargs !! "config" = Some (OConfig config) →
     tokenizes t fields →
     num_rows dataset = n →
     map_Forall (λ _ c, length c = n) (data dataset) →
     data dataset !! "text" = Some (CStr <$> texts) →
     data dataset !! "label" = Some (CStr <$> labels) →
     Forall (λ s, is_Some (label2id config !! s)) labels →
     ∃ (h' : heap) (out : Dataset) (ids : list Z),
       _preprocess_data self dataset "pytorch" kwargs h = (h', inr (Some out))
       ∧ data out !! "text" = None
       ∧ data out !! "label" = Some (CInt <$> ids)
       ∧ Forall2 (λ s i, label2id config !! s = Some i) labels ids
       ∧ num_rows out = n
       ∧ ((0 < n)%nat →
          ∀ k, k = "input_ids" ∨ k = "attention_mask" →
            data out !! k = Some (tokenised_column t (CStr <$> texts) k n)
            ∧ length (tokenised_column t (CStr <$> texts) k n) = n))
  ∧ (∀ (self : TextClassificationBenchmark) (t : PreTrainedTokenizerBase)
       (fields : gset string) (encoding : pydict) (h : heap),
       tokenizes t fields →
       tok_call t [CStr "a"] true (PadBool true) = inr encoding →
       ∃ (h' : heap) (out : Dataset) (input_ids attention_mask : list cell),
         _preprocess_data self one_row "pytorch"
           {[ "tokenizer" := OTokenizer t;
              "config" := OConfig {| label2id := pos_neg |} ]} h
           = (h', inr (Some out))
         ∧ data out !! "text" = None
         ∧ data out !! "label" = Some [CInt 1]
         ∧ encoding !! "input_ids" = Some input_ids
         ∧ data out !! "input_ids" = Some input_ids
         ∧ length input_ids = 1%nat
         ∧ encoding !! "attention_mask" = Some attention_mask
         ∧ data out !! "attention_mask" = Some attention_mask
         ∧ length attention_mask = 1%nat).
Proof.
  split; [exact preprocess_data_pytorch_general |].
  intros self t fields encoding h Htok Henc.
  destruct (preprocess_data_pytorch_general self one_row
              {[ "tokenizer" := OTokenizer t;
                 "config" := OConfig {| label2id := pos_neg |} ]}
              t {| label2id := pos_neg |} fields ["a"] ["pos"] 1 h)
    as (h' & out & ids & Erun & Htext & Hlab & HF & _ & Hfields).
  { reflexivity. }
  { reflexivity. }
  { exact Htok. }
  { reflexivity. }
  { exact one_row_columns. }
  { reflexivity. }
  { reflexivity. }
  { repeat constructor. eexists. reflexivity. }
  assert (∀ k, tokenised_column t (CStr <$> ["a"]) k 1
               = default [] (encoding !! k)) as Hcol.
  { intros k. unfold tokenised_column, range. cbn.
    rewrite decide_True by lia. cbn.
    unfold slice. rewrite take_ge by (cbn; pose proof batch_size_pos; lia).
    cbn. rewrite Henc. by rewrite app_nil_r. }
  assert (∀ k, k ∈ fields → ∃ c, encoding !! k = Some c) as Hdom.
  { intros k Hk. destruct Htok as (_ & _ & _ & Hcall).
    destruct (Hcall ["a"]) as (enc & E & Hd & _); [done |].
    cbn in E. rewrite Henc in E. injection E as <-.
    apply elem_of_dom. by rewrite Hd. }
  destruct (Hfields ltac:(lia) "input_ids" ltac:(by left)) as [Hc1 Hl1].
  destruct (Hfields ltac:(lia) "attention_mask" ltac:(by right)) as [Hc2 Hl2].
  rewrite Hcol in Hc1, Hl1, Hc2, Hl2.
  destruct (Hdom "input_ids") as [c1 E1]; [apply Htok |].
  destruct (Hdom "attention_mask") as [c2 E2]; [apply Htok |].
  rewrite E1 in Hc1, Hl1. rewrite E2 in Hc2, Hl2. cbn in *.
  exists h', out, c1, c2.
  split; [done |]. split; [done |]. split; [| done].
  inversion HF as [|s i ls' ids' Hi HF']; subst. inversion HF'; subst.
  cbn in Hi. injection Hi as <-. exact Hlab.
Qed.

Lemma preprocess_data_pytorch_witness :
  ∃ (h' : heap) (out : Dataset) (ids : list Z),
    _preprocess_data bench (from_dict two_rows 2) "pytorch" pytorch_kwargs ∅
      = (h', inr (Some out))
    ∧ data out !! "text" = None
    ∧ data out !! "label" = Some (CInt <$> ids)
    ∧ Forall2 (λ s i, pos_neg !! s = Some i) ["pos"; "neg"] ids
    ∧ num_rows out = 2%nat
    ∧ ((0 < 2)%nat →
       ∀ k, k = "input_ids" ∨ k = "attention_mask" →
         data out !! k
         = Some (tokenised_column char_tokenizer
                   (CStr <$> ["a"; "bcd"]) k 2)
         ∧ length (tokenised_column char_tokenizer
                     (CStr <$> ["a"; "bcd"]) k 2) = 2%nat).
Proof.
  apply (proj1 preprocess_data_pytorch bench (from_dict two_rows 2)
           pytorch_kwargs char_tokenizer {| label2id := pos_neg |}
           {[ "input_ids"; "attention_mask" ]} ["a"; "bcd"] ["pos"; "neg"]
           2%nat ∅).
  - reflexivity.
  - reflexivity.
  - exact char_tokenizer_tokenizes.
  - reflexivity.
  - exact two_rows_columns.
  - reflexivity.
  - reflexivity.
  - repeat constructor; eexists; reflexivity.
Defined.

Lemma keeps_bind {A B} (m : M A) (f : A → M B) :
  keeps_store m → (∀ a, keeps_store (f a)) → keeps_store (m ≫= f).
Proof.
  intros Hm Hf h. unfold mbind, M_bind. specialize (Hm h).
  destruct (m h) as [h1 [e | a]]; cbn in *; subst; [done | apply Hf].
Qed.

Lemma keeps_lift {A} (r : result A) : keeps_store (lift r).
Proof. intros h. done. Qed.

Lemma keeps_ret {A} (a : A) : keeps_store (mret a : M A).
Proof. intros h. done. Qed.

Lemma compute_metrics_effect (self : TextClassificationBenchmark)
    (predictions_and_labels : list (list float) * list Z)
    (id2label : option (list string)) :
  keeps_store (_compute_metrics self predictions_and_labels id2label)
  ∧ store_independent (_compute_metrics self predictions_and_labels id2label).
Proof.
  destruct predictions_and_labels as [predictions labels].
  unfold _compute_metrics. split.
  - repeat (apply keeps_bind; [apply keeps_lift | intros ?]).
    apply keeps_ret.
  - repeat (apply independent_bind; [apply independent_lift | intros ?]).
    apply independent_ret.
Qed.

(** C9, as stated, fails on [_create_numerical_labels]: a call on a batch
    object with the labels ["pos"], ["neg"] succeeds and changes that
    object in the store, and a second call with the same arguments
    raises [InvalidBenchmark] instead of returning the batch again. *)
Lemma create_numerical_labels_mutates_and_differs :
  (_create_numerical_labels bench 1%positive pos_neg store_two_rows).2
    = inr 1%positive
  ∧ (_create_numerical_labels bench 1%positive pos_neg store_two_rows).1
    ≠ store_two_rows
  ∧ (∃ msg,
       (_create_numerical_labels bench 1%positive pos_neg
          (_create_numerical_labels bench 1%positive pos_neg store_two_rows).1).2
       = inl (InvalidBenchmark msg)).
Proof.
  split; [| split].
  - vm_compute. reflexivity.
  - intros Heq.
    apply (f_equal (λ h : heap, h !! 1%positive ≫= (.!! "label"))) in Heq.
    vm_compute in Heq. discriminate.
  - eexists. vm_compute. reflexivity.
Qed.

(** C9, amended. [_compute_metrics] and [_load_data_collator] leave the
    store as it is, and [_preprocess_data] only adds objects to it; the
    result of each of the three is the same from every store, so a second
    call with the same arguments gives the same result.
    [_create_numerical_labels] either raises and leaves the store as it
    is, or overwrites the label column of the batch it was given, in
    place, and returns that batch; its result is determined by its
    arguments and the contents of the batch. *)
Theorem methods_effects :
  (∀ self predictions_and_labels id2label,
     keeps_store (_compute_metrics self predictions_and_labels id2label)
     ∧ store_independent (_compute_metrics self predictions_and_labels id2label))
  ∧ (∀ self tokenizer,
       keeps_store (_load_data_collator self tokenizer)
       ∧ store_independent (_load_data_collator self tokenizer))
  ∧ (∀ self dataset framework kwargs,
       extends_store (_preprocess_data self dataset framework kwargs)
       ∧ store_independent (_preprocess_data self dataset framework kwargs))
  ∧ (∀ self examples label2id (h : heap),
       (∃ e, _create_numerical_labels self examples label2id h = (h, inl e))
       ∨ (∃ ids,
            _create_numerical_labels self examples label2id h
            = (<[examples := <["label" := CInt <$> ids]> (deref h examples)]> h,
               inr examples)))
  ∧ (∀ self examples label2id (h1 h2 : heap),
       deref h1 examples = deref h2 examples →
       (_create_numerical_labels self examples label2id h1).2
       = (_create_numerical_labels self examples label2id h2).2).
Proof.
  split; [exact compute_metrics_effect |].
  split; [intros self tokenizer; split; [apply keeps_ret | apply independent_ret] |].
  split; [exact preprocess_data_effect |].
  split.
  - intros self examples label2id h. rewrite create_numerical_labels_run.
    destruct (deref h examples !! "label") as [labels|]; [| eauto].
    destruct (mapM (label2id_getitem label2id) labels) as [[]|ids]; eauto.
  - intros self examples label2id h1 h2 Hd.
    rewrite !create_numerical_labels_run, Hd.
    destruct (deref h2 examples !! "label") as [labels|]; [| done].
    by destruct (mapM (label2id_getitem label2id) labels) as [[]|ids].
Qed.

Lemma methods_effects_witness :
  (_create_numerical_labels bench 1%positive pos_neg store_two_rows).2
  = (_create_numerical_labels bench 1%positive pos_neg
       (<[2%positive := ∅]> store_two_rows)).2.
Proof.
  apply (proj2 (proj2 (proj2 (proj2 methods_effects)))
           bench 1%positive pos_neg).
  reflexivity.
Defined.

(** * Further properties of the adapter *)

(** ** Results without the store *)

Lemma mapM_M_result {A B} (g : A → M B) (R : A → result B) (l : list A) :
  (∀ a h, (g a h).2 = R a) → ∀ h, (mapM g l h).2 = mapM R l.
Proof.
  intros Hg. induction l as [|a l IH]; intros h; [done |].
  rewrite !mapM_cons. unfold mbind at 1, M_bind.
  specialize (Hg a h). destruct (g a h) as [h1 [e | b]]; cbn in Hg;
    rewrite <- Hg; [done |].
  cbn. unfold mbind, M_bind. specialize (IH h1).
  destruct (mapM g l h1) as [h2 [e | k]]; cbn in IH; by rewrite <- IH.
Qed.

Lemma apply_function_on_batch_result function merged ds start (h : heap) :
  batch_result function merged →
  (apply_function_on_batch function ds start h).2
  = merged (slice start batch_size <$> data ds).
Proof.
  intros Hres. unfold apply_function_on_batch.
  set (batch := slice start batch_size <$> data ds).
  set (r := fresh (dom h)).
  rewrite (bind_ok _ _ h (<[r := batch]> h) r) by reflexivity.
  specialize (Hres batch (<[r := batch]> h) r (lookup_insert_eq _ _ _)).
  unfold mbind, M_bind.
  destruct (function r (<[r := batch]> h)) as [h2 [e | r']]; cbn in *; done.
Qed.

Lemma Dataset_map_result function merged ds (h : heap) :
  batch_result function merged →
  (Dataset_map function ds h).2 = map_batches merged ds.
Proof.
  intros Hres. unfold Dataset_map, map_batches. case_decide; [done |].
  unfold mbind at 1, M_bind.
  pose proof (mapM_M_result (apply_function_on_batch function ds)
                (λ start, merged (slice start batch_size <$> data ds))
                (range 0 (num_rows ds) batch_size)
                (λ a h0, apply_function_on_batch_result
                           function merged ds a h0 Hres) h) as Hm.
  destruct (mapM (apply_function_on_batch function ds)
              (range 0 (num_rows ds) batch_size) h) as [h1 [e | batches]];
    cbn in Hm; rewrite <- Hm; reflexivity.
Qed.

Lemma tokenise_batch_result (tokenizer : pyobj) :
  batch_result (tokenise tokenizer) (tokenise_merged tokenizer).
Proof.
  intros batch h r Hr.
  assert (deref h r = batch) as Hd by (unfold deref; by rewrite Hr).
  unfold tokenise_merged, tokenise, getitem, lift, alloc, mbind, M_bind.
  rewrite Hd. destruct (batch !! "text") as [doc|]; cbn; [| done].
  destruct (call tokenizer doc true (PadBool true)) as [e | enc]; cbn;
    [done |].
  assert (fresh (dom h) ≠ r) as Hne.
  { intros Heq. pose proof (fresh_None h) as Hf. congruence. }
  by rewrite deref_insert_eq, deref_insert_ne, Hd.
Qed.

Lemma numericalise_batch_result (self : TextClassificationBenchmark)
    (label2id : gmap string Z) :
  batch_result (λ examples, _create_numerical_labels self examples label2id)
    (numericalise_merged label2id).
Proof.
  intros batch h r Hr.
  assert (deref h r = batch) as Hd by (unfold deref; by rewrite Hr).
  unfold numericalise_merged. rewrite create_numerical_labels_run, Hd.
  destruct (batch !! "label") as [labels|]; cbn; [| done].
  destruct (mapM (label2id_getitem label2id) labels) as [[]|ids]; cbn;
    try done.
  by rewrite deref_insert_eq, (idemp_L (∪)).
Qed.

(** The first failure decides a [mapM] over results. *)
Lemma mapM_result_first_failure {A B} (R : A → result B) l1 a l2 e :
  Forall (λ x, ∃ b, R x = inr b) l1 → R a = inl e →
  mapM R (l1 ++ a :: l2)%list = inl e.
Proof.
  intros Hok Ha. induction Hok as [|x l1 [b Hb] _ IH]; cbn.
  - by rewrite Ha.
  - rewrite Hb. cbn. fold (mapM R). by rewrite IH.
Qed.

Lemma map_batches_first_failure (merged : pydict → result pydict)
    (ds : Dataset) (before : list nat) (start : nat) (after : list nat)
    (e : exn) :
  range 0 (num_rows ds) batch_size = (before ++ start :: after)%list →
  Forall (λ o, ∃ b, merged (slice o batch_size <$> data ds) = inr b) before →
  merged (slice start batch_size <$> data ds) = inl e →
  map_batches merged ds = inl e.
Proof.
  intros Hrange Hok Hfail. unfold map_batches. case_decide as Hz.
  - rewrite Hz in Hrange. by destruct before.
  - rewrite Hrange.
    rewrite (mapM_result_first_failure
               (λ o, merged (slice o batch_size <$> data ds))
               before start after e Hok Hfail).
    reflexivity.
Qed.

(** ** More on [_create_numerical_labels] *)

(** X1. On a batch without a label column the call raises the [KeyError]
    for ["label"], not [InvalidBenchmark]: the handler formats the label
    column into its message and fails on the same lookup. The store is as
    before. *)
Theorem create_numerical_labels_no_label_column
    (self : TextClassificationBenchmark) (label2id : gmap string Z)
    (h : heap) (examples : ref) (batch : pydict) :
  h !! examples = Some batch →
  batch !! "label" = None →
  _create_numerical_labels self examples label2id h
  = (h, inl (KeyError (CStr "label"))).
Proof.
  intros Hex Hlab. rewrite create_numerical_labels_run.
  unfold deref. rewrite Hex. cbn. by rewrite Hlab.
Qed.

Lemma create_numerical_labels_no_label_column_witness :
  _create_numerical_labels bench 1%positive pos_neg store_no_label
  = (store_no_label, inl (KeyError (CStr "label"))).
Proof.
  apply (create_numerical_labels_no_label_column bench pos_neg store_no_label
           1%positive {[ "text" := [CStr "a"] ]}).
  - reflexivity.
  - reflexivity.
Defined.

Lemma mapM_label2id_ints (label2id : gmap string Z) (ids : list Z) :
  ids ≠ [] →
  ∃ i, mapM (label2id_getitem label2id) (CInt <$> ids) = inl (KeyError (CInt i)).
Proof. destruct ids as [|i ids]; [done |]. intros _. by exists i. Qed.

(** X2. Numericalising the same batch object twice: after a first call
    that succeeded on a non-empty label column, a second call with the same
    arguments raises [InvalidBenchmark] (the labels are integers now, and
    no key of [label2id]) and leaves the numericalised batch as it is; on
    an empty label column the second call succeeds again and changes
    nothing. *)
Theorem create_numerical_labels_twice
    (self : TextClassificationBenchmark) (label2id : gmap string Z)
    (h : heap) (examples : ref) (batch : pydict) (labels : list string) :
  h !! examples = Some batch →
  batch !! "label" = Some (CStr <$> labels) →
  Forall (λ s, is_Some (label2id !! s)) labels →
  ∃ (ids : list Z) (h1 : heap),
    _create_numerical_labels self examples label2id h = (h1, inr examples)
    ∧ deref h1 examples !! "label" = Some (CInt <$> ids)
    ∧ (labels ≠ [] →
       _create_numerical_labels self examples label2id h1
       = (h1, inl (InvalidBenchmark
                     (label_absent_message (CInt <$> ids) label2id))))
    ∧ (labels = [] →
       _create_numerical_labels self examples label2id h1 = (h1, inr examples)).
Proof.
  intros Hex Hlab Hall.
  destruct (mapM_label2id_present label2id labels Hall) as (ids & E & F).
  set (h1 := <[examples := <["label" := CInt <$> ids]> batch]> h).
  assert (deref h examples = batch) as Hd by (unfold deref; by rewrite Hex).
  assert (deref h1 examples = <["label" := CInt <$> ids]> batch) as Hd1
    by apply deref_insert_eq.
  exists ids, h1. split; [| split; [| split]].
  - rewrite create_numerical_labels_run, Hd, Hlab, E. reflexivity.
  - rewrite Hd1. apply lookup_insert_eq.
  - intros Hne. rewrite create_numerical_labels_run, Hd1, lookup_insert_eq.
    destruct (mapM_label2id_ints label2id ids) as [i Ei].
    { intros ->. apply Forall2_nil_inv_r in F. done. }
    rewrite Ei. reflexivity.
  - intros ->. apply Forall2_nil_inv_l in F. subst ids.
    rewrite create_numerical_labels_run, Hd1, lookup_insert_eq.
    cbn -[deref]. unfold h1. cbn. by rewrite !insert_insert_eq.
Qed.

Lemma create_numerical_labels_twice_witness :
  ∃ (ids : list Z) (h1 : heap),
    _create_numerical_labels bench 1%positive pos_neg store_two_rows
      = (h1, inr 1%positive)
    ∧ deref h1 1%positive !! "label" = Some (CInt <$> ids)
    ∧ (["pos"; "neg"] ≠ [] →
       _create_numerical_labels bench 1%positive pos_neg h1
       = (h1, inl (InvalidBenchmark
                     (label_absent_message (CInt <$> ids) pos_neg))))
    ∧ (["pos"; "neg"] = [] →
       _create_numerical_labels bench 1%positive pos_neg h1
       = (h1, inr 1%positive)).
Proof.
  apply (create_numerical_labels_twice bench pos_neg store_two_rows
           1%positive two_rows ["pos"; "neg"]).
  - reflexivity.
  - reflexivity.
  - repeat constructor; eexists; reflexivity.
Defined.

Lemma mapM_label2id_stops (label2id : gmap string Z) (pre : list string)
    (bad : cell) (rest : list cell) (e : exn) :
  Forall (λ s, is_Some (label2id !! s)) pre →
  label2id_getitem label2id bad = inl e →
  mapM (label2id_getitem label2id) ((CStr <$> pre) ++ bad :: rest)%list
  = inl e.
Proof.
  intros Hpre Hbad. apply mapM_result_first_failure; [| done].
  apply Forall_fmap. eapply Forall_impl; [exact Hpre |].
  intros s [i Hi]. exists i. cbn. by rewrite Hi.
Qed.

(** X3. The first label that cannot be looked up decides the error, and
    only a [KeyError] is turned into [InvalidBenchmark]: when the labels
    before it are keys of [label2id], a label that is an integer (or a
    string that is no key) gives [InvalidBenchmark] naming the whole label
    column, and a label that is a list gives the [TypeError] of the lookup
    itself. The store is as before in each case. *)
Theorem create_numerical_labels_first_offender
    (self : TextClassificationBenchmark) (label2id : gmap string Z)
    (h : heap) (examples : ref) (batch : pydict)
    (pre : list string) (bad : cell) (rest : list cell) :
  h !! examples = Some batch →
  batch !! "label" = Some ((CStr <$> pre) ++ bad :: rest)%list →
  Forall (λ s, is_Some (label2id !! s)) pre →
  (∀ s, bad = CStr s → label2id !! s = None) →
  _create_numerical_labels self examples label2id h
  = (h, inl (match bad with
             | CSeq _ => TypeError
             | _ => InvalidBenchmark
                      (label_absent_message
                         ((CStr <$> pre) ++ bad :: rest)%list label2id)
             end)).
Proof.
  intros Hex Hlab Hpre Hbad.
  rewrite create_numerical_labels_run. unfold deref. rewrite Hex. cbn.
  rewrite Hlab.
  destruct bad as [s | z | l].
  - rewrite (mapM_label2id_stops label2id pre (CStr s) rest
               (KeyError (CStr s)) Hpre); [done |].
    cbn. by rewrite (Hbad s eq_refl).
  - by rewrite (mapM_label2id_stops label2id pre (CInt z) rest
                  (KeyError (CInt z)) Hpre).
  - by rewrite (mapM_label2id_stops label2id pre (CSeq l) rest
                  TypeError Hpre).
Qed.

Lemma create_numerical_labels_first_offender_witness :
  _create_numerical_labels bench 1%positive pos_neg
      {[ 1%positive := {[ "label" := [CStr "pos"; CSeq [0%Z]; CStr "x"] ]} ]}
  = ({[ 1%positive := {[ "label" := [CStr "pos"; CSeq [0%Z]; CStr "x"] ]} ]},
     inl TypeError).
Proof.
  apply (create_numerical_labels_first_offender bench pos_neg
           {[ 1%positive := {[ "label" := [CStr "pos"; CSeq [0%Z]; CStr "x"] ]} ]}
           1%positive {[ "label" := [CStr "pos"; CSeq [0%Z]; CStr "x"] ]}
           ["pos"] (CSeq [0%Z]) [CStr "x"]).
  - reflexivity.
  - reflexivity.
  - repeat constructor. eexists. reflexivity.
  - discriminate.
Defined.

(** ** The result of [_preprocess_data], without the store *)

Lemma bind_result {A B} (m : M A) (f : A → M B) (r : result A)
    (F : A → result B) :
  (∀ h, (m h).2 = r) → (∀ a h, (f a h).2 = F a) →
  ∀ h, ((m ≫= f) h).2 = r ≫= F.
Proof.
  intros Hm Hf h. unfold mbind at 1, M_bind. specialize (Hm h).
  destruct (m h) as [h1 [e | a]]; cbn in Hm; subst r; [done |].
  apply Hf.
Qed.

Lemma lift_result {A} (r : result A) (h : heap) : (lift r h).2 = r.
Proof. reflexivity. Qed.

(** With framework ["pytorch"] the outcome is that of the two steps mapped
    over the batches, each read as a function of the batch contents, and
    of the removal of the text column; it is the same from every store. *)
Lemma preprocess_data_pytorch_result (self : TextClassificationBenchmark)
    (dataset : Dataset) (kwargs : gmap string pyobj) (h : heap) :
  (_preprocess_data self dataset "pytorch" kwargs h).2
  = (tokenizer ← dict_getitem kwargs "tokenizer";
     tokenised ← map_batches (tokenise_merged tokenizer) dataset;
     config ← dict_getitem kwargs "config";
     label2id ← getattr_label2id config;
     preprocessed ← map_batches (numericalise_merged label2id) tokenised;
     removed ← remove_columns ["text"] preprocessed;
     mret (Some removed)).
Proof.
  unfold _preprocess_data. rewrite decide_True by done. revert h.
  apply bind_result; [apply lift_result |]. intros tokenizer.
  apply bind_result;
    [intros h; apply Dataset_map_result, tokenise_batch_result |].
  intros tokenised.
  apply bind_result; [apply lift_result |]. intros config.
  apply bind_result; [apply lift_result |]. intros label2id.
  apply bind_result;
    [intros h; apply Dataset_map_result, numericalise_batch_result |].
  intros preprocessed.
  apply bind_result; [apply lift_result |]. intros removed h.
  reflexivity.
Qed.

Lemma Dataset_eta (ds : Dataset) :
  ds = {| data := data ds; num_rows := num_rows ds |}.
Proof. by destruct ds. Qed.

(** The tokenised table, read without the store. *)
Lemma map_batches_tokenise (t : PreTrainedTokenizerBase) (fields : gset string)
    (ds : Dataset) (n : nat) (texts : list string) :
  tokenizes t fields →
  num_rows ds = n →
  map_Forall (λ _ c, length c = n) (data ds) →
  data ds !! "text" = Some (CStr <$> texts) →
  ∃ T : pydict,
    map_batches (tokenise_merged (OTokenizer t)) ds
      = inr {| data := T; num_rows := n |}
    ∧ map_Forall (λ _ c, length c = n) T
    ∧ (∀ k c, k ∉ fields → data ds !! k = Some c → T !! k = Some c)
    ∧ dom (data ds) ⊆ dom T
    ∧ dom T ⊆ fields ∪ dom (data ds)
    ∧ ((0 < n)%nat → dom T = fields ∪ dom (data ds)).
Proof.
  intros Htok Hn Hlen Htext.
  destruct (decide (n = 0)%nat) as [Hz | Hnz].
  - exists (data ds). split; [| split; [done | split; [done | split;
      [done | split; [| lia]]]]].
    + unfold map_batches. rewrite decide_True by congruence.
      rewrite <- Hn. by rewrite <- Dataset_eta.
    + intros k Hk. apply elem_of_union. by right.
  - destruct (Dataset_map_tokenise t fields ds n texts ∅)
      as (h' & T & E & _ & Hdom & HlenT & Hkeep & _); [done | done | lia | done | done |].
    exists T. split; [| split; [done | split; [done | split; [| split]]]].
    + rewrite <- (Dataset_map_result (tokenise (OTokenizer t)) _ ds ∅
                    (tokenise_batch_result (OTokenizer t))).
      by rewrite E.
    + rewrite Hdom. intros k Hk. apply elem_of_union. by right.
    + by rewrite Hdom.
    + done.
Qed.

(** The numericalised table, read without the store. *)
Lemma map_batches_numericalise (label2id : gmap string Z) (ds : Dataset)
    (n : nat) (labels : list string) (ids : list Z) :
  num_rows ds = n →
  map_Forall (λ _ c, length c = n) (data ds) →
  data ds !! "label" = Some (CStr <$> labels) →
  Forall2 (λ s i, label2id !! s = Some i) labels ids →
  ∃ T : pydict,
    map_batches (numericalise_merged label2id) ds
      = inr {| data := T; num_rows := n |}
    ∧ dom T = dom (data ds)
    ∧ T !! "label" = Some (CInt <$> ids)
    ∧ ∀ k c, k ≠ "label" → data ds !! k = Some c → T !! k = Some c.
Proof.
  intros Hn Hlen Hlab HF.
  destruct (decide (n = 0)%nat) as [Hz | Hnz].
  - assert (labels = []) as ->.
    { apply nil_length_inv.
      rewrite <- (length_fmap CStr), (Hlen _ _ Hlab). done. }
    apply Forall2_nil_inv_l in HF. subst ids.
    exists (data ds). split; [| split; [done | split; [exact Hlab | done]]].
    unfold map_batches. rewrite decide_True by congruence.
    rewrite <- Hn. by rewrite <- Dataset_eta.
  - destruct (Dataset_map_numericalise bench label2id ds n labels ids ∅)
      as (h' & T & E & _ & Hdom & HlabT & Hkeep); [done | lia | done | done | done |].
    exists T. split; [| done].
    rewrite <- (Dataset_map_result _ _ ds ∅
                  (numericalise_batch_result bench label2id)).
    by rewrite E.
Qed.

(** The first element of a list with a decidable property. *)
Lemma first_with {A} (P : A → Prop) `{∀ x, Decision (P x)} (l : list A) :
  Exists P l →
  ∃ l1 a l2, l = (l1 ++ a :: l2)%list ∧ Forall (λ x, ¬ P x) l1 ∧ P a.
Proof.
  induction l as [|x l IH]; intros Hex; [by inversion Hex |].
  destruct (decide (P x)) as [Hx | Hx].
  - exists [], x, l. by repeat split.
  - destruct IH as (l1 & a & l2 & -> & Hl1 & Ha).
    { inversion Hex; [done | done]. }
    exists (x :: l1), a, l2. repeat split; [by constructor | done].
Qed.

Lemma Exists_join {A B} (Q : B → Prop) (f : A → list B) (l : list A) :
  Exists Q (mjoin (f <$> l)) → Exists (λ a, Exists Q (f a)) l.
Proof.
  induction l as [|a l IH]; cbn; [by inversion 1 |].
  rewrite Exists_app. intros [Ha | Hl]; [by left | right; by apply IH].
Qed.

(** ** Errors of [_preprocess_data] with framework ["pytorch"] *)

Lemma tokenise_merged_slice (tokenizer : pyobj) (ds : Dataset)
    (texts : list cell) (start : nat) :
  data ds !! "text" = Some texts →
  tokenise_merged tokenizer (slice start batch_size <$> data ds)
  = match call tokenizer (slice start batch_size texts) true (PadBool true) with
    | inl e => inl e
    | inr encoding => inr (encoding ∪ (slice start batch_size <$> data ds))
    end.
Proof. intros Htext. unfold tokenise_merged. by rewrite lookup_fmap, Htext. Qed.

(** X4. A dataset with rows but no text column: whatever the tokenizer
    and the other keyword arguments are, preprocessing raises the
    [KeyError] for ["text"] of the first batch and returns no dataset. *)
Theorem preprocess_data_no_text_column
    (self : TextClassificationBenchmark) (dataset : Dataset)
    (kwargs : gmap string pyobj) (tokenizer : pyobj) (h : heap) :
  kwargs !! "tokenizer" = Some tokenizer →
  data dataset !! "text" = None →
  (0 < num_rows dataset)%nat →
  (_preprocess_data self dataset "pytorch" kwargs h).2
  = inl (KeyError (CStr "text")).
Proof.
  intros Htok Htext Hpos. rewrite preprocess_data_pytorch_result.
  unfold dict_getitem. rewrite Htok. cbn.
  rewrite (map_batches_first_failure (tokenise_merged tokenizer) dataset
             [] 0%nat (range_from (num_rows dataset - 1) batch_size
                         (num_rows dataset) batch_size)
             (KeyError (CStr "text"))); [done | | constructor |].
  - exact (range_nonempty _ _ batch_size_pos Hpos).
  - unfold tokenise_merged. by rewrite lookup_fmap, Htext.
Qed.

Lemma preprocess_data_no_text_column_witness :
  (_preprocess_data bench no_text_rows "pytorch" pytorch_kwargs ∅).2
  = inl (KeyError (CStr "text")).
Proof.
  apply (preprocess_data_no_text_column bench no_text_rows pytorch_kwargs
           (OTokenizer char_tokenizer) ∅).
  - reflexivity.
  - reflexivity.
  - cbn. lia.
Defined.

(** X5. An error of the tokenizer is raised as it is: when the tokenizer
    fails on a batch and succeeded on the batches before it, preprocessing
    raises that very error, whether or not the keyword arguments hold a
    configuration. An object that is no tokenizer fails this way on the
    first batch. *)
Theorem preprocess_data_tokenizer_error
    (self : TextClassificationBenchmark) (dataset : Dataset)
    (kwargs : gmap string pyobj) (tokenizer : pyobj) (texts : list cell)
    (before : list nat) (start : nat) (after : list nat) (e : exn)
    (h : heap) :
  kwargs !! "tokenizer" = Some tokenizer →
  data dataset !! "text" = Some texts →
  range 0 (num_rows dataset) batch_size = (before ++ start :: after)%list →
  Forall (λ o, ∃ encoding,
            call tokenizer (slice o batch_size texts) true (PadBool true)
            = inr encoding) before →
  call tokenizer (slice start batch_size texts) true (PadBool true) = inl e →
  (_preprocess_data self dataset "pytorch" kwargs h).2 = inl e.
Proof.
  intros Htok Htext Hrange Hbefore Hfail.
  rewrite preprocess_data_pytorch_result.
  unfold dict_getitem. rewrite Htok. cbn.
  rewrite (map_batches_first_failure (tokenise_merged tokenizer) dataset
             before start after e Hrange); [done | |].
  - eapply Forall_impl; [exact Hbefore |]. cbn. intros o [enc Henc].
    rewrite (tokenise_merged_slice tokenizer dataset texts o Htext), Henc.
    eauto.
  - by rewrite (tokenise_merged_slice tokenizer dataset texts start Htext),
      Hfail.
Qed.

Lemma preprocess_data_tokenizer_error_witness :
  (_preprocess_data bench one_row "pytorch"
     {[ "tokenizer" := OTokenizer failing_tokenizer ]} ∅).2
  = inl ValueError
  ∧ (_preprocess_data bench one_row "pytorch" {[ "tokenizer" := ONone ]} ∅).2
    = inl TypeError.
Proof.
  split.
  - apply (preprocess_data_tokenizer_error bench one_row
             {[ "tokenizer" := OTokenizer failing_tokenizer ]}
             (OTokenizer failing_tokenizer) [CStr "a"] [] 0%nat [] ValueError ∅).
    + reflexivity.
    + reflexivity.
    + vm_compute. reflexivity.
    + constructor.
    + reflexivity.
  - apply (preprocess_data_tokenizer_error bench one_row
             {[ "tokenizer" := ONone ]} ONone [CStr "a"] [] 0%nat []
             TypeError ∅).
    + reflexivity.
    + reflexivity.
    + vm_compute. reflexivity.
    + constructor.
    + reflexivity.
Defined.

(** X6. The configuration is looked up only after the dataset was
    tokenised: with a working tokenizer and no ["config"] among the keyword
    arguments, preprocessing tokenises every batch and then raises the
    [KeyError] for ["config"]. *)
Theorem preprocess_data_no_config
    (self : TextClassificationBenchmark) (dataset : Dataset)
    (kwargs : gmap string pyobj) (t : PreTrainedTokenizerBase)
    (fields : gset string) (texts : list string) (n : nat) (h : heap) :
  kwargs !! "tokenizer" = Some (OTokenizer t) →
  kwargs !! "config" = None →
  tokenizes t fields →
  num_rows dataset = n →
  map_Forall (λ _ c, length c = n) (data dataset) →
  data dataset !! "text" = Some (CStr <$> texts) →
  (_preprocess_data self dataset "pytorch" kwargs h).2
  = inl (KeyError (CStr "config")).
Proof.
  intros Htok Hcfg Htokenizes Hn Hlen Htext.
  destruct (map_batches_tokenise t fields dataset n texts)
    as (T & E & _); [done .. |].
  rewrite preprocess_data_pytorch_result.
  unfold dict_getitem. rewrite Htok. cbn. rewrite E. cbn.
  unfold dict_getitem. by rewrite Hcfg.
Qed.

Lemma preprocess_data_no_config_witness :
  (_preprocess_data bench (from_dict two_rows 2) "pytorch"
     {[ "tokenizer" := OTokenizer char_tokenizer ]} ∅).2
  = inl (KeyError (CStr "config")).
Proof.
  apply (preprocess_data_no_config bench (from_dict two_rows 2)
           {[ "tokenizer" := OTokenizer char_tokenizer ]} char_tokenizer
           {[ "input_ids"; "attention_mask" ]} ["a"; "bcd"] 2%nat ∅).
  - reflexivity.
  - reflexivity.
  - exact char_tokenizer_tokenizes.
  - reflexivity.
  - exact two_rows_columns.
  - reflexivity.
Defined.

Lemma numericalise_merged_slice (label2id : gmap string Z) (T : pydict)
    (labels : list string) (start : nat) :
  T !! "label" = Some (CStr <$> labels) →
  numericalise_merged label2id (slice start batch_size <$> T)
  = match mapM (label2id_getitem label2id)
            (CStr <$> take batch_size (drop start labels)) with
    | inr ids => inr (<["label" := CInt <$> ids]> (slice start batch_size <$> T))
    | inl (KeyError _) =>
        inl (InvalidBenchmark
               (label_absent_message
                  (CStr <$> take batch_size (drop start labels)) label2id))
    | inl e => inl e
    end.
Proof.
  intros Hlab. unfold numericalise_merged. rewrite lookup_fmap, Hlab. cbn.
  unfold slice. by rewrite <- slice_fmap.
Qed.

(** X7. A dataset with rows, a text column and no label column: with a
    working tokenizer and a configuration, preprocessing tokenises the
    dataset and then raises the [KeyError] for ["label"], not
    [InvalidBenchmark]. *)
Theorem preprocess_data_no_label_column
    (self : TextClassificationBenchmark) (dataset : Dataset)
    (kwargs : gmap string pyobj) (t : PreTrainedTokenizerBase)
    (config : Config) (fields : gset string) (texts : list string)
    (n : nat) (h : heap) :
  kwargs !! "tokenizer" = Some (OTokenizer t) →
  kwargs !! "config" = Some (OConfig config) →
  tokenizes t fields →
  num_rows dataset = n → (0 < n)%nat →
  map_Forall (λ _ c, length c = n) (data dataset) →
  data dataset !! "text" = Some (CStr <$> texts) →
  data dataset !! "label" = None →
  (_preprocess_data self dataset "pytorch" kwargs h).2
  = inl (KeyError (CStr "label")).
Proof.
  intros Htok Hcfg Htokenizes Hn Hpos Hlen Htext Hlab.
  destruct (map_batches_tokenise t fields dataset n texts)
    as (T & E & _ & _ & _ & Hsub & _); [done .. |].
  assert (T !! "label" = None) as HlabT.
  { apply not_elem_of_dom. intros Hin. apply Hsub in Hin.
    apply elem_of_union in Hin as [Hin | Hin].
    - by apply Htokenizes in Hin.
    - by apply not_elem_of_dom in Hlab. }
  rewrite preprocess_data_pytorch_result.
  unfold dict_getitem. rewrite Htok. cbn. rewrite E. cbn. rewrite Hcfg. cbn.
  rewrite (map_batches_first_failure (numericalise_merged (label2id config))
             {| data := T; num_rows := n |}
             [] 0%nat (range_from (n - 1) batch_size n batch_size)
             (KeyError (CStr "label"))); [done | | constructor |].
  - exact (range_nonempty _ _ batch_size_pos Hpos).
  - unfold numericalise_merged. cbn. by rewrite lookup_fmap, HlabT.
Qed.

Lemma preprocess_data_no_label_column_witness :
  (_preprocess_data bench no_label_rows "pytorch" pytorch_kwargs ∅).2
  = inl (KeyError (CStr "label")).
Proof.
  apply (preprocess_data_no_label_column bench no_label_rows pytorch_kwargs
           char_tokenizer {| label2id := pos_neg |}
           {[ "input_ids"; "attention_mask" ]} ["a"] 1%nat ∅).
  - reflexivity.
  - reflexivity.
  - exact char_tokenizer_tokenizes.
  - reflexivity.
  - lia.
  - intros k c. cbn. rewrite lookup_singleton_Some. by intros [_ <-].
  - reflexivity.
  - reflexivity.
Defined.

(** X8. A dataset with a label that is no key of [label2id]: with a
    working tokenizer, preprocessing raises [InvalidBenchmark] and returns
    no dataset; the label column named in the message is that of the first
    batch that holds such a label. *)
Theorem preprocess_data_unknown_label
    (self : TextClassificationBenchmark) (dataset : Dataset)
    (kwargs : gmap string pyobj) (t : PreTrainedTokenizerBase)
    (config : Config) (fields : gset string) (texts labels : list string)
    (n : nat) (h : heap) :
  kwargs !! "tokenizer" = Some (OTokenizer t) →
  kwargs !! "config" = Some (OConfig config) →
  tokenizes t fields →
  num_rows dataset = n →
  map_Forall (λ _ c, length c = n) (data dataset) →
  data dataset !! "text" = Some (CStr <$> texts) →
  data dataset !! "label" = Some (CStr <$> labels) →
  Exists (λ s, label2id config !! s = None) labels →
  ∃ (before : list nat) (start : nat) (after : list nat),
    range 0 n batch_size = (before ++ start :: after)%list
    ∧ Forall (λ o, Forall (λ s, is_Some (label2id config !! s))
                     (take batch_size (drop o labels))) before
    ∧ Exists (λ s, label2id config !! s = None)
        (take batch_size (drop start labels))
    ∧ (_preprocess_data self dataset "pytorch" kwargs h).2
      = inl (InvalidBenchmark
               (label_absent_message
                  (CStr <$> take batch_size (drop start labels))
                  (label2id config))).
Proof.
  intros Htok Hcfg Htokenizes Hn Hlen Htext Hlab Hex.
  assert (length labels = n) as Hlabels.
  { rewrite <- (Hlen _ _ Hlab). by rewrite length_fmap. }
  destruct (map_batches_tokenise t fields dataset n texts)
    as (T & E & _ & Hkeep & _); [done .. |].
  assert (T !! "label" = Some (CStr <$> labels)) as HlabT.
  { apply Hkeep; [apply Htokenizes | done]. }
  destruct (first_with
              (λ o, Exists (λ s, label2id config !! s = None)
                      (take batch_size (drop o labels)))
              (range 0 n batch_size))
    as (before & start & after & Hrange & Hbefore & Hstart).
  { apply (Exists_join _ (λ o, take batch_size (drop o labels))).
    by rewrite (join_slices n batch_size batch_size_pos labels Hlabels). }
  assert (Forall (λ o, Forall (λ s, is_Some (label2id config !! s))
                         (take batch_size (drop o labels))) before)
    as Hpresent.
  { eapply Forall_impl; [exact Hbefore |]. cbn. intros o Ho.
    apply not_Exists_Forall in Ho; [| intros s; apply _].
    eapply Forall_impl; [exact Ho |]. cbn. intros s Hs.
    by apply not_eq_None_Some. }
  exists before, start, after.
  split; [done |]. split; [done |]. split; [done |].
  rewrite preprocess_data_pytorch_result.
  unfold dict_getitem. rewrite Htok. cbn. rewrite E. cbn. rewrite Hcfg. cbn.
  rewrite (map_batches_first_failure (numericalise_merged (label2id config))
             {| data := T; num_rows := n |} before start after
             (InvalidBenchmark
                (label_absent_message
                   (CStr <$> take batch_size (drop start labels))
                   (label2id config))));
    [done | done | |].
  - eapply Forall_impl; [exact Hpresent |]. cbn. intros o Ho.
    rewrite (numericalise_merged_slice _ T labels o HlabT).
    destruct (mapM_label2id_present _ _ Ho) as (ids & Eids & _).
    rewrite Eids. eauto.
  - cbn. rewrite (numericalise_merged_slice _ T labels start HlabT).
    destruct (mapM_label2id_absent _ _ Hstart) as (s & Es & _).
    by rewrite Es.
Qed.

Lemma preprocess_data_unknown_label_witness :
  ∃ (before : list nat) (start : nat) (after : list nat),
    range 0 2 batch_size = (before ++ start :: after)%list
    ∧ Forall (λ o, Forall (λ s, is_Some (label2id only_pos !! s))
                     (take batch_size (drop o ["pos"; "neg"]))) before
    ∧ Exists (λ s, label2id only_pos !! s = None)
        (take batch_size (drop start ["pos"; "neg"]))
    ∧ (_preprocess_data bench (from_dict two_rows 2) "pytorch"
         {[ "tokenizer" := OTokenizer char_tokenizer;
            "config" := OConfig only_pos ]} ∅).2
      = inl (InvalidBenchmark
               (label_absent_message
                  (CStr <$> take batch_size (drop start ["pos"; "neg"]))
                  (label2id only_pos))).
Proof.
  apply (preprocess_data_unknown_label bench (from_dict two_rows 2)
           {[ "tokenizer" := OTokenizer char_tokenizer;
              "config" := OConfig only_pos ]}
           char_tokenizer only_pos
           {[ "input_ids"; "attention_mask" ]} ["a"; "bcd"] ["pos"; "neg"]
           2%nat ∅).
  - reflexivity.
  - reflexivity.
  - exact char_tokenizer_tokenizes.
  - reflexivity.
  - exact two_rows_columns.
  - reflexivity.
  - reflexivity.
  - right. left. reflexivity.
Defined.

(** ** The table [_preprocess_data] returns *)

(** X9. The preprocessed table is well formed and loses nothing but the
    text: it has as many rows as the dataset, every column of it has one
    entry per row, and a column of the dataset other than the text and the
    label that the tokenizer does not produce is in it unchanged; when the
    dataset has a row, its columns are those of the dataset and of the
    tokenizer without the text. *)
Theorem preprocess_data_table
    (self : TextClassificationBenchmark) (dataset : Dataset)
    (kwargs : gmap string pyobj) (t : PreTrainedTokenizerBase)
    (config : Config) (fields : gset string) (texts labels : list string)
    (n : nat) (h : heap) :
  kwargs !! "tokenizer" = Some (OTokenizer t) →
  kwargs !! "config" = Some (OConfig config) →
  tokenizes t fields →
  num_rows dataset = n →
  map_Forall (λ _ c, length c = n) (data dataset) →
  data dataset !! "text" = Some (CStr <$> texts) →
  data dataset !! "label" = Some (CStr <$> labels) →
  Forall (λ s, is_Some (label2id config !! s)) labels →
  ∃ out : Dataset,
    (_preprocess_data self dataset "pytorch" kwargs h).2 = inr (Some out)
    ∧ num_rows out = n
    ∧ map_Forall (λ _ c, length c = n) (data out)
    ∧ (∀ k c, k ∉ fields → k ≠ "text" → k ≠ "label" →
         data dataset !! k = Some c → data out !! k = Some c)
    ∧ ((0 < n)%nat →
       dom (data out) = (fields ∪ dom (data dataset)) ∖ {[ "text" ]}).
Proof.
  intros Htok Hcfg Htokenizes Hn Hlen Htext Hlab Hall.
  destruct (mapM_label2id_present (label2id config) labels Hall)
    as (ids & _ & HF).
  assert (length ids = n) as Hids.
  { rewrite <- (Forall2_length _ _ _ HF), <- (Hlen _ _ Hlab).
    by rewrite length_fmap. }
  destruct (map_batches_tokenise t fields dataset n texts)
    as (T1 & E1 & Hlen1 & Hkeep1 & Hsub1 & _ & Hdom1); [done .. |].
  assert (T1 !! "label" = Some (CStr <$> labels)) as Hlab1.
  { apply Hkeep1; [apply Htokenizes | done]. }
  destruct (map_batches_numericalise (label2id config)
              {| data := T1; num_rows := n |} n labels ids)
    as (T2 & E2 & Hdom2 & Hlab2 & Hkeep2); [done .. |].
  cbn in Hdom2.
  assert ("text" ∈ dom T2) as Htext2.
  { rewrite Hdom2. apply Hsub1, elem_of_dom. eauto. }
  exists {| data := delete "text" T2; num_rows := n |}.
  split; [| split; [done | split; [| split]]].
  - rewrite preprocess_data_pytorch_result.
    unfold dict_getitem. rewrite Htok. cbn. rewrite E1. cbn.
    rewrite Hcfg. cbn. rewrite E2. cbn.
    by rewrite (remove_text_column T2 n Htext2).
  - intros k c. cbn. rewrite lookup_delete_Some. intros [Hk Hc].
    destruct (decide (k = "label")) as [-> | Hne].
    + rewrite Hlab2 in Hc. injection Hc as <-. by rewrite length_fmap.
    + assert (k ∈ dom T1) as Hk1 by (rewrite <- Hdom2; apply elem_of_dom; eauto).
      apply elem_of_dom in Hk1 as [c' Hc'].
      rewrite (Hkeep2 k c' Hne Hc') in Hc. injection Hc as <-.
      by eapply Hlen1.
  - intros k c Hf Hnt Hnl Hc. cbn. rewrite lookup_delete_ne by done.
    apply Hkeep2; [done |]. by apply Hkeep1.
  - intros Hpos. cbn. by rewrite dom_delete_L, Hdom2, (Hdom1 Hpos).
Qed.

Lemma with_id_rows_columns :
  map_Forall (λ _ c, length c = 2%nat) (data with_id_rows).
Proof.
  intros k c. cbn. rewrite !lookup_insert_Some, lookup_singleton_Some.
  by intros [[_ <-] | [_ [[_ <-] | [_ [_ <-]]]]].
Qed.

Lemma preprocess_data_table_witness :
  ∃ out : Dataset,
    (_preprocess_data bench with_id_rows "pytorch" pytorch_kwargs ∅).2
      = inr (Some out)
    ∧ num_rows out = 2%nat
    ∧ map_Forall (λ _ c, length c = 2%nat) (data out)
    ∧ (∀ k c, k ∉ ({[ "input_ids"; "attention_mask" ]} : gset string) →
         k ≠ "text" → k ≠ "label" →
         data with_id_rows !! k = Some c → data out !! k = Some c)
    ∧ ((0 < 2)%nat →
       dom (data out)
       = ({[ "input_ids"; "attention_mask" ]} ∪ dom (data with_id_rows))
           ∖ {[ "text" ]}).
Proof.
  apply (preprocess_data_table bench with_id_rows pytorch_kwargs
           char_tokenizer {| label2id := pos_neg |}
           {[ "input_ids"; "attention_mask" ]} ["a"; "bcd"] ["pos"; "neg"]
           2%nat ∅).
  - reflexivity.
  - reflexivity.
  - exact char_tokenizer_tokenizes.
  - reflexivity.
  - exact with_id_rows_columns.
  - reflexivity.
  - reflexivity.
  - repeat constructor; eexists; reflexivity.
Defined.

(** ** Errors of [_compute_metrics] *)

(** X10. On scores with rows of positive width, whatever metric object
    the adapter holds: without a metric under ["mcc"] the call raises the
    [KeyError] for ["mcc"]; an error of the metric's [compute] is raised as
    it is; a result without ["matthews_correlation"] raises the [KeyError]
    for that key; and otherwise the mapping returned has the one key
    ["mcc"], any other entry of the metric's result being dropped. The
    metric is given the per-row arg-max as predictions and the labels as
    references. *)
Theorem compute_metrics_metric_lookup
    (self : TextClassificationBenchmark) (predictions : list (list float))
    (labels : list Z) (id2label : option (list string)) (C : nat) (h : heap) :
  (0 < C)%nat →
  Forall (λ row, length row = C) predictions →
  ∃ classes : list Z,
    argmax_last_axis predictions = inr classes
    ∧ _compute_metrics self (predictions, labels) id2label h
      = (h, match _metrics self !! "mcc" with
            | None => inl (KeyError (CStr "mcc"))
            | Some metric =>
                match compute metric classes labels with
                | inl e => inl e
                | inr results =>
                    match results !! "matthews_correlation" with
                    | None => inl (KeyError (CStr "matthews_correlation"))
                    | Some mcc => inr {[ "mcc" := mcc ]}
                    end
                end
            end).
Proof.
  intros HC Hrows.
  destruct (argmax_last_axis_in_range predictions C HC Hrows)
    as (classes & E & _ & _).
  exists classes. split; [done |].
  unfold _compute_metrics. rewrite (lift_bind_ok _ _ h classes E).
  unfold dict_getitem.
  destruct (_metrics self !! "mcc") as [metric|]; [| done].
  rewrite (lift_bind_ok _ _ h metric eq_refl).
  destruct (compute metric classes labels) as [e | results]; [done |].
  rewrite (lift_bind_ok _ _ h results eq_refl).
  by destruct (results !! "matthews_correlation").
Qed.

Lemma compute_metrics_metric_lookup_witness :
  _compute_metrics accuracy_bench
    ([[0.1; 0.9]; [0.8; 0.2]]%float, [1; 0]%Z) None ∅
  = (∅, inl (KeyError (CStr "matthews_correlation"))).
Proof.
  destruct (compute_metrics_metric_lookup accuracy_bench
              [[0.1; 0.9]; [0.8; 0.2]]%float [1; 0]%Z None 2 ∅)
    as (classes & _ & Hrun).
  - lia.
  - repeat constructor.
  - exact Hrun.
Defined.
